(** * Core DNA chatbot backend: retrieval, excerpt cleaning and answer assembly

    A shallow embedding of the decision core of
    [chatbot-backend/production_server.py] and
    [chatbot-backend/smart_demo_server.py]:

    - [PyStr]: the [str] operations the code uses;
    - [Re]: the fragment of Python's [re] the patterns of the code need,
      as a backtracking matcher;
    - [PyFloat]: Python floats as IEEE binary64 values;
    - [clean_content], [search_content] and the two
      [assemble_grounded_response] functions, translated line by line.

    A [str] is a [string] whose characters are the code points 0..255;
    text with code points above 255 is outside the model. *)

From Stdlib Require Import List Bool Arith ZArith Lia String Ascii.
From Stdlib Require Import Sorting.Sorted Sorting.Permutation.
From Stdlib Require Import Floats.SpecFloat.
Import ListNotations.

Local Open Scope list_scope.
Local Open Scope string_scope.

(** ** Strings *)

Module PyStr.

Definition code (c : ascii) : nat := nat_of_ascii c.

Definition in_range (lo hi : nat) (c : ascii) : bool :=
  (lo <=? code c)%nat && (code c <=? hi)%nat.

(** The line feed, written ['\n'] in the source. *)
Definition nl : ascii := ascii_of_nat 10.
Definition NL : string := String nl "".

(** [str.isspace] and the class [\s] agree below 256:
    TAB..CR, FS..US, space, NEL and the no-break space. *)
Definition is_space (c : ascii) : bool :=
  in_range 9 13 c || in_range 28 32 c
  || (code c =? 133)%nat || (code c =? 160)%nat.

Definition is_digit (c : ascii) : bool := in_range 48 57 c.

Definition is_upper_AZ (c : ascii) : bool := in_range 65 90 c.

Definition is_lower_az (c : ascii) : bool := in_range 97 122 c.

(** The class [\w] of a [str] pattern, restricted to code points
    below 256: alphanumerics (in the sense of [str.isalnum]) and
    the underscore. *)
Definition is_word (c : ascii) : bool :=
  is_digit c || is_upper_AZ c || is_lower_az c || (code c =? 95)%nat
  || (code c =? 170)%nat || in_range 178 179 c || (code c =? 181)%nat
  || in_range 185 186 c || in_range 188 190 c
  || in_range 192 214 c || in_range 216 246 c || in_range 248 255 c.

(** [str.lower] on one character: A..Z and the capital letters
    0xC0..0xDE (the multiplication sign 0xD7 apart) move up by 32. *)
Definition lower_char (c : ascii) : ascii :=
  if is_upper_AZ c || (in_range 192 222 c && negb (code c =? 215)%nat)
  then ascii_of_nat (code c + 32)
  else c.

Fixpoint lower (s : string) : string :=
  match s with
  | "" => ""
  | String c s' => String (lower_char c) (lower s')
  end.

Definition len (s : string) : nat := String.length s.

(** [s[:n]] for a non-negative literal [n]. *)
Fixpoint slice_to (n : nat) (s : string) : string :=
  match n, s with
  | S k, String c s' => String c (slice_to k s')
  | _, _ => ""
  end.

Fixpoint startswith (p s : string) : bool :=
  match p, s with
  | "", _ => true
  | String a p', String b s' => Ascii.eqb a b && startswith p' s'
  | String _ _, "" => false
  end.

(** [sub in s]. *)
Fixpoint contains (sub s : string) : bool :=
  startswith sub s ||
  match s with
  | "" => false
  | String _ s' => contains sub s'
  end.

Definition is_empty (s : string) : bool :=
  match s with "" => true | _ => false end.

(** [s.endswith(suf)]: some suffix of [s] is [suf]. *)
Fixpoint endswith (suf s : string) : bool :=
  String.eqb suf s ||
  match s with
  | "" => false
  | String _ s' => endswith suf s'
  end.

Fixpoint lstrip (s : string) : string :=
  match s with
  | "" => ""
  | String c s' => if is_space c then lstrip s' else s
  end.

(** A character is dropped when it is a space and nothing is left of
    what follows it. *)
Fixpoint rstrip (s : string) : string :=
  match s with
  | "" => ""
  | String c s' =>
      let t := rstrip s' in
      if is_space c && is_empty t then "" else String c t
  end.

(** [s.strip()]. *)
Definition strip (s : string) : string := rstrip (lstrip s).

Fixpoint drop (n : nat) (s : string) : string :=
  match n, s with
  | S k, String _ s' => drop k s'
  | _, _ => s
  end.

(** [sep.join(l)]. *)
Fixpoint join (sep : string) (l : list string) : string :=
  match l with
  | [] => ""
  | [x] => x
  | x :: l' => x ++ sep ++ join sep l'
  end.

(** Scanning helper shared by [replace] and [split]: [skip] counts
    the characters of the occurrence of [old] still to be passed. *)
Fixpoint replace_aux (old new s : string) (skip : nat) : string :=
  match s with
  | "" => ""
  | String c s' =>
      match skip with
      | S k => replace_aux old new s' k
      | 0 =>
          if startswith old s
          then new ++ replace_aux old new s' (len old - 1)
          else String c (replace_aux old new s' 0)
      end
  end.

(** [s.replace(old, new)] for a non-empty [old]. *)
Definition replace (old new s : string) : string :=
  replace_aux old new s 0.

Fixpoint split_aux (sep s : string) (skip : nat) : string * list string :=
  match s with
  | "" => ("", [])
  | String c s' =>
      match skip with
      | S k => split_aux sep s' k
      | 0 =>
          if startswith sep s
          then ("", let (p, ps) := split_aux sep s' (len sep - 1) in p :: ps)
          else let (p, ps) := split_aux sep s' 0 in (String c p, ps)
      end
  end.

(** [s.split(sep)] for a non-empty [sep]. *)
Definition split (sep s : string) : list string :=
  let (p, ps) := split_aux sep s 0 in p :: ps.

End PyStr.

(** ** Regular expressions

    The patterns of the program repeat single characters only, so a
    pattern is a list of nodes and the matcher recurses on that list,
    with an inner loop over the subject for each repetition.  Priorities
    are those of a backtracking matcher: a greedy repetition tries the
    longest run first, a lazy one the shortest. *)

Module Re.
Import PyStr.

Definition cclass := ascii -> bool.

(** Nodes without repetition, also usable inside a lookahead. *)
Inductive atom : Type :=
| Chr (p : cclass)      (* one character of the class *)
| Bos                   (* [^] *)
| Bol                   (* [^] under re.MULTILINE *)
| Eos                   (* [$]: at the end, or before a final newline *)
| WordB.                (* [\b] *)

Inductive node : Type :=
| A (a : atom)
| Star (greedy : bool) (p : cclass)      (* [p*] and [p*?] *)
| Ahead (alts : list (list atom))         (* [(?=a1|a2|...)] *)
| Mark.                                   (* a group boundary *)

Definition regex := list node.

Definition any : cclass := fun _ => true.                 (* [.] under re.DOTALL *)
Definition dot : cclass := fun c => negb (Ascii.eqb c nl). (* [.] *)
Definition chr (c : ascii) : cclass := Ascii.eqb c.
Definition chr_i (c : ascii) : cclass :=                   (* under re.IGNORECASE *)
  fun x => Ascii.eqb (lower_char x) (lower_char c).
Definition AZ_i : cclass := fun c => is_upper_AZ c || is_lower_az c.

Fixpoint lit_with (f : ascii -> cclass) (s : string) : regex :=
  match s with
  | "" => []
  | String c s' => A (Chr (f c)) :: lit_with f s'
  end.

(** A literal, and a literal under re.IGNORECASE. *)
Definition lit : string -> regex := lit_with chr.
Definition lit_i : string -> regex := lit_with chr_i.

Definition star (p : cclass) : regex := [Star true p].
Definition lazy_star (p : cclass) : regex := [Star false p].
Definition plus (p : cclass) : regex := [A (Chr p); Star true p].

Definition is_word_opt (o : option ascii) : bool :=
  match o with Some c => is_word c | None => false end.

Definition head (s : string) : option ascii :=
  match s with "" => None | String c _ => Some c end.

(** One atom at a position: [prev] is the character before it. *)
Definition step (a : atom) (prev : option ascii) (s : string)
  : option (option ascii * string) :=
  match a with
  | Chr p =>
      match s with
      | String c s' => if p c then Some (Some c, s') else None
      | "" => None
      end
  | Bos => match prev with None => Some (prev, s) | Some _ => None end
  | Bol =>
      match prev with
      | None => Some (prev, s)
      | Some c => if Ascii.eqb c nl then Some (prev, s) else None
      end
  | Eos =>
      match s with
      | "" => Some (prev, s)
      | String c "" => if Ascii.eqb c nl then Some (prev, s) else None
      | _ => None
      end
  | WordB =>
      if xorb (is_word_opt prev) (is_word_opt (head s))
      then Some (prev, s) else None
  end.

Fixpoint steps (l : list atom) (prev : option ascii) (s : string) : bool :=
  match l with
  | [] => true
  | a :: l' =>
      match step a prev s with
      | Some (prev', s') => steps l' prev' s'
      | None => false
      end
  end.

(** [m r prev s marks]: match [r] at the position whose remaining
    subject is [s]; the result is the subject left after the match,
    with the subjects left at each [Mark], latest first. *)
Fixpoint m (r : regex) (prev : option ascii) (s : string) (marks : list string)
  : option (string * list string) :=
  match r with
  | [] => Some (s, marks)
  | A a :: r' =>
      match step a prev s with
      | Some (prev', s') => m r' prev' s' marks
      | None => None
      end
  | Star true p :: r' =>
      (fix loop (prev : option ascii) (s : string) :=
         match s with
         | String c s' =>
             if p c
             then match loop (Some c) s' with
                  | Some x => Some x
                  | None => m r' prev s marks
                  end
             else m r' prev s marks
         | "" => m r' prev s marks
         end) prev s
  | Star false p :: r' =>
      (fix loop (prev : option ascii) (s : string) :=
         match m r' prev s marks with
         | Some x => Some x
         | None =>
             match s with
             | String c s' => if p c then loop (Some c) s' else None
             | "" => None
             end
         end) prev s
  | Ahead alts :: r' =>
      if existsb (fun alt => steps alt prev s) alts
      then m r' prev s marks
      else None
  | Mark :: r' => m r' prev s (s :: marks)
  end.

(** Length of the match that left [rest] of [s]. *)
Definition consumed (s rest : string) : nat := len s - len rest.

(** [re.match(r, s)] as a test. *)
Definition matches (r : regex) (s : string) : bool :=
  match m r None s [] with Some _ => true | None => false end.

(** [re.search(r, s)]: the leftmost match; the result is the subject
    at the start of the match, what is left after it, and the marks. *)
Fixpoint search_from (r : regex) (prev : option ascii) (s : string)
  : option (string * string * list string) :=
  match m r prev s [] with
  | Some (rest, marks) => Some (s, rest, marks)
  | None =>
      match s with
      | String c s' => search_from r (Some c) s'
      | "" => None
      end
  end.

Definition search (r : regex) (s : string) := search_from r None s.

(** [re.sub(r, repl, s)] for a pattern that matches no empty string
    and a replacement without group references: [skip] counts the
    characters of the current match still to be dropped. *)
Fixpoint sub_from (r : regex) (repl : string) (prev : option ascii)
    (s : string) (skip : nat) : string :=
  match s with
  | "" => ""
  | String c s' =>
      match skip with
      | S k => sub_from r repl (Some c) s' k
      | 0 =>
          match m r prev s [] with
          | Some (rest, _) =>
              match consumed s rest with
              | S k => repl ++ sub_from r repl (Some c) s' k
              | 0 => String c (sub_from r repl (Some c) s' 0)
              end
          | None => String c (sub_from r repl (Some c) s' 0)
          end
      end
  end.

Definition sub (r : regex) (repl s : string) : string :=
  sub_from r repl None s 0.

(** [re.split(r, s)] for a pattern without groups that matches no
    empty string: the pieces between the matches. *)
Fixpoint split_from (r : regex) (prev : option ascii) (s : string)
    (skip : nat) : string * list string :=
  match s with
  | "" => ("", [])
  | String c s' =>
      match skip with
      | S k => split_from r (Some c) s' k
      | 0 =>
          match m r prev s [] with
          | Some (rest, _) =>
              match consumed s rest with
              | S k => ("", let (p, ps) := split_from r (Some c) s' k in p :: ps)
              | 0 => let (p, ps) := split_from r (Some c) s' 0 in (String c p, ps)
              end
          | None => let (p, ps) := split_from r (Some c) s' 0 in (String c p, ps)
          end
      end
  end.

Definition split (r : regex) (s : string) : list string :=
  let (p, ps) := split_from r None s 0 in p :: ps.

(** [re.findall(r, s)] for a pattern without groups that matches no
    empty string: the matched texts, left to right. *)
Fixpoint findall_from (r : regex) (prev : option ascii) (s : string)
    (skip : nat) : list string :=
  match s with
  | "" => []
  | String c s' =>
      match skip with
      | S k => findall_from r (Some c) s' k
      | 0 =>
          match m r prev s [] with
          | Some (rest, _) =>
              match consumed s rest with
              | S k => slice_to (S k) s :: findall_from r (Some c) s' k
              | 0 => findall_from r (Some c) s' 0
              end
          | None => findall_from r (Some c) s' 0
          end
      end
  end.

Definition findall (r : regex) (s : string) : list string :=
  findall_from r None s 0.

End Re.

(** ** Floats

    A Python float is an IEEE binary64 value; comparison and arithmetic
    are those of [SpecFloat] at precision 53 and maximal exponent 1024. *)

Module PyFloat.

Definition float := spec_float.

Definition prec : Z := 53.
Definition emax : Z := 1024.

(** [a < b], [a <= b], [a >= b] and [a > b]; each is false when an
    operand is a NaN. *)
Definition lt (a b : float) : bool := SFltb a b.
Definition le (a b : float) : bool := SFleb a b.
Definition ge (a b : float) : bool := SFleb b a.
Definition gt (a b : float) : bool := SFltb b a.

Definition add (a b : float) : float := SFadd prec emax a b.
Definition sub (a b : float) : float := SFsub prec emax a b.

(** [a / b] for a divisor that is not zero; each division of the
    program divides by the length of a list just found non-empty. *)
Definition div (a b : float) : float := SFdiv prec emax a b.

(** [float(n)] for a non-negative integer such as [len(l)]. *)
Definition of_nat (n : nat) : float :=
  binary_normalize prec emax (Z.of_nat n) 0 false.

Definition zero : float := S754_zero false.

(** The literals of the program, as the nearest binary64 values. *)
Definition f1_0  : float := S754_finite false 4503599627370496 (-52).
Definition f2_0  : float := S754_finite false 4503599627370496 (-51).
Definition f0_5  : float := S754_finite false 4503599627370496 (-53).
Definition f0_1  : float := S754_finite false 7205759403792794 (-56).
Definition f0_55 : float := S754_finite false 4953959590107546 (-53).
Definition f0_7  : float := S754_finite false 6305039478318694 (-53).
Definition f0_72 : float := S754_finite false 6485183463413514 (-53).
Definition f0_9  : float := S754_finite false 8106479329266893 (-53).

(** Values used by the tests of the repository and by the spec. *)
Definition f0_34     : float := S754_finite false 6124895493223875 (-54).
Definition f0_65     : float := S754_finite false 5854679515581645 (-53).
Definition f0_549999 : float := S754_finite false 4953950582908291 (-53).
Definition f0_719999 : float := S754_finite false 6485174456214259 (-53).

(** [min(a, b)] and [max(a, b)]: the first argument is kept unless the
    second is strictly smaller (larger). *)
Definition min (a b : float) : float := if lt b a then b else a.
Definition max (a b : float) : float := if gt b a then b else a.

(** [sum(l)]: the items are added left to right, starting from 0. *)
Definition sum (l : list float) : float := fold_left add l zero.

Definition is_nan (a : float) : bool :=
  match a with S754_nan => true | _ => false end.

End PyFloat.

(** ** The data model *)

(** A context block: [{title, url, last_updated, excerpt}]. *)
Record ContextBlock : Type := mkBlock {
  cb_title : string;
  cb_url : string;
  cb_last_updated : string;
  cb_excerpt : string
}.

(** A citation: [{title, url, quote}]. *)
Record Citation : Type := mkCitation {
  cit_title : string;
  cit_url : string;
  cit_quote : string
}.

(** The values of an action's ["type"]. *)
Inductive ActionType : Type :=
| none | clarify | handoff | collect_lead | use_tool.

(** An action: [{"type": ...}], with ["fields"] when there are some. *)
Record Action : Type := mkAction {
  act_type : ActionType;
  act_fields : option (list string)
}.

(** The response: [{text, citations, confidence, actions}]. *)
Record Response : Type := mkResponse {
  text : string;
  citations : list Citation;
  confidence : PyFloat.float;
  actions : list Action
}.

Definition action (t : ActionType) : Action := mkAction t None.

Definition lead_fields : list string := ["name"; "email"; "company"; "use_case"].

Definition collect_lead_action : Action := mkAction collect_lead (Some lead_fields).

(** [any(w in s for w in words)]. *)
Definition any_in (words : list string) (s : string) : bool :=
  existsb (fun w => PyStr.contains w s) words.

(** [s in l] for a list of strings. *)
Definition mem (s : string) (l : list string) : bool :=
  existsb (String.eqb s) l.

(** [not l] for a list. *)
Definition is_nil {X : Type} (l : list X) : bool :=
  match l with [] => true | _ :: _ => false end.

(** [l[:3]] and the like, for a non-negative literal bound. *)
Definition take {X : Type} (n : nat) (l : list X) : list X := firstn n l.

(** ** The excerpt cleaner ([smart_demo_server.clean_content]) *)

Module Cleaner.
Import PyStr Re.

Definition NLNL : string := NL ++ NL.

Definition is_bullet : cclass := chr "-".         (* [[-•]] below 256 *)
Definition is_punct : cclass :=                    (* [[.!?]] *)
  fun c => Ascii.eqb c "." || Ascii.eqb c "!" || Ascii.eqb c "?".
Definition AZ_or_space : cclass :=                 (* [[A-Z\s]] *)
  fun c => is_upper_AZ c || is_space c.

(** [(?=\n[A-Z]|\n\n|$)], and the same under re.IGNORECASE. *)
Definition section_end : regex :=
  [Ahead [[Chr (chr nl); Chr is_upper_AZ]; [Chr (chr nl); Chr (chr nl)]; [Eos]]].
Definition section_end_i : regex :=
  [Ahead [[Chr (chr nl); Chr AZ_i]; [Chr (chr nl); Chr (chr nl)]; [Eos]]].

Definition re_page_title   : regex := (lit "Page Title:" ++ lazy_star any ++ lit NLNL)%list.
Definition re_key_sections : regex := (lit "Key Sections:" ++ lazy_star any ++ lit NLNL)%list.
Definition re_content      : regex := (lit "Content:" ++ star is_space)%list.
Definition re_on_this_page : regex := (lit "On this page:" ++ lazy_star dot ++ lit NL)%list.
Definition re_bullet       : regex := (A Bol :: star is_space ++ A (Chr is_bullet) :: star is_space)%list.
Definition re_numbering    : regex := (A Bol :: star is_space ++ plus is_digit ++ lit "." ++ star is_space)%list.
Definition re_core_dna     : regex := (lit_i "Core dna" ++ star dot ++ lit NL)%list.
Definition re_impl_example : regex := (lit "Implementation Example" ++ star any ++ [A Eos])%list.
Definition re_use_case     : regex := (lit "Practical Use Case:" ++ lazy_star any ++ section_end)%list.
Definition re_blank_lines  : regex := (lit NL ++ star is_space ++ lit NL ++ star is_space ++ plus (chr nl))%list.
Definition re_whitespace   : regex := plus is_space.
Definition re_sentence_end : regex := plus is_punct.
Definition re_all_caps     : regex := (A Bos :: plus AZ_or_space ++ [A Eos])%list.
Definition re_description  : regex :=
  (lit_i "Description" ++ plus is_space ++ Mark :: lazy_star any ++ Mark :: section_end_i)%list.

(** The stripping passes, in the order of the source. *)
Definition strip_passes (content : string) : string :=
  (* Remove metadata sections completely *)
  let content := Re.sub re_page_title "" content in
  let content := Re.sub re_key_sections "" content in
  let content := Re.sub re_content "" content in
  let content := Re.sub re_on_this_page "" content in
  (* Remove bullet points and structural markers *)
  let content := Re.sub re_bullet "" content in
  let content := Re.sub re_numbering "" content in
  (* Remove "Core dna" section headers and repetitive elements *)
  let content := Re.sub re_core_dna "" content in
  let content := Re.sub re_impl_example "" content in
  let content := Re.sub re_use_case "" content in
  (* Clean up excessive whitespace *)
  let content := Re.sub re_blank_lines NLNL content in
  let content := Re.sub re_whitespace " " content in
  content.

Definition skip_prefixes : list string :=
  ["Page Title"; "Key Sections"; "On this page"; "Implementation Example"; "No FAQ"].

Definition vocabulary : list string :=
  ["provides"; "offers"; "enables"; "helps"; "allows"; "supports";
   "platform"; "solution"; "business"; "customer"; "ecommerce";
   "commerce"; "management"; "integration"; "feature"].

(** The test on a stripped sentence. *)
Definition useful (sentence : string) : bool :=
  (30 <? len sentence)%nat
  && negb (existsb (fun p => startswith p sentence) skip_prefixes)
  && negb (Re.matches re_all_caps sentence)
  && negb (endswith "Core dna" sentence)
  && any_in vocabulary (lower sentence).

(** The loop over the sentences: each is stripped, tested, and
    appended stripped once more. *)
Definition useful_sentences (content : string) : list string :=
  let sentences := Re.split re_sentence_end content in
  map strip (filter useful (map strip sentences)).

(** [description_match.group(1).strip()], when the search succeeds. *)
Definition description (content : string) : option string :=
  match Re.search re_description content with
  | Some (_, _, [after; before]) =>
      Some (strip (slice_to (consumed before after) before))
  | _ => None
  end.

(** [s[:n] + ('...' if len(s) > n else '')]. *)
Definition truncated (n : nat) (s : string) : string :=
  slice_to n s ++ (if (n <? len s)%nat then "..." else "").

Definition paragraphs (content : string) : list string :=
  map strip (filter (fun p => (50 <? len (strip p))%nat) (PyStr.split NLNL content)).

Definition clean_content (content : string) : string :=
  if is_empty content then "" else
  let content := strip_passes content in
  let useful_sentences := useful_sentences content in
  match useful_sentences with
  | _ :: _ =>
      (* Take the 2-3 most informative sentences *)
      let result := join ". " (take 3 useful_sentences) in
      if endswith "." result then result else result ++ "."
  | [] =>
      (* Fallback: try to extract description sections *)
      match description content with
      | Some desc => truncated 300 desc
      | None =>
          (* Final fallback: return first paragraph *)
          match paragraphs content with
          | p :: _ => truncated 300 p
          | [] =>
              if (200 <? len content)%nat
              then slice_to 200 content ++ "..."
              else content
          end
      end
  end.

End Cleaner.

(** ** The production assembler ([production_server.py]) *)

Module Production.
Import PyStr PyFloat.

Definition lead_triggers : list string :=
  ["demo"; "quote"; "pricing"; "contact"; "sales"; "budget"; "timeline"; "implementation"].

Definition low_confidence_text : string :=
  "I don't have sufficient information about that topic in my Core DNA knowledge base. Could you be more specific about what aspect of Core DNA's platform you're interested in?".

Definition no_context_text : string :=
  "I don't have specific information about that topic. Could you ask about Core DNA's e-commerce platform, content management features, or integrations?".

(** One entry of [citations], built from a block. *)
Definition citation_of (block : ContextBlock) : Citation :=
  mkCitation (cb_title block) (cb_url block)
    (if (150 <? len (cb_excerpt block))%nat
     then slice_to 150 (cb_excerpt block) ++ "..."
     else cb_excerpt block).

(** The text of the full answer, by query intent. *)
Definition full_answer_text (user_lower : string) (top_context : ContextBlock)
    (context_blocks : list ContextBlock) : string :=
  if any_in ["what is"; "what are"; "define"; "explain"] user_lower then
    let response_text := "Based on Core DNA's documentation: " ++ cb_excerpt top_context in
    match context_blocks with
    | _ :: second :: _ =>
        response_text ++ " Additionally, " ++ slice_to 150 (cb_excerpt second) ++ "..."
    | _ => response_text
    end
  else if any_in ["how"; "steps"; "process"] user_lower then
    "According to our documentation: " ++ cb_excerpt top_context
  else if any_in ["feature"; "capability"; "can"] user_lower then
    let response_text := "Core DNA offers: " ++ cb_excerpt top_context in
    match context_blocks with
    | _ :: second :: _ =>
        response_text ++ " We also provide: " ++ slice_to 100 (cb_excerpt second) ++ "..."
    | _ => response_text
    end
  else
    "From our documentation on " ++ cb_title top_context ++ ": " ++ cb_excerpt top_context.

Definition brief_answer_text (top_context : ContextBlock) : string :=
  "Based on our documentation: " ++ slice_to 150 (cb_excerpt top_context)
  ++ "... Would you like more specific information about any particular aspect?".

Definition lead_answer_text (top_context : ContextBlock) : string :=
  "Based on our documentation: " ++ slice_to 200 (cb_excerpt top_context)
  ++ "... To discuss your specific needs, I'd like to connect you with our team.".

Definition lead_citation (top_context : ContextBlock) : Citation :=
  mkCitation (cb_title top_context) (cb_url top_context)
    (slice_to 100 (cb_excerpt top_context) ++ "...").

(** The part of the function after the lead-capture check. *)
Definition answer_from_context (user_lower : string) (top_context : ContextBlock)
    (context_blocks : list ContextBlock) (retrieval_confidence : float) : Response :=
  (* Create citations for referenced sources *)
  let citations := map citation_of (take 3 context_blocks) in
  (* Generate response based on query intent and confidence *)
  if ge retrieval_confidence f0_72 then
    (* High confidence - full answer *)
    mkResponse (full_answer_text user_lower top_context context_blocks)
      citations retrieval_confidence [action none]
  else
    (* 0.55-0.71 - brief answer + clarifying question *)
    mkResponse (brief_answer_text top_context)
      (take 1 citations) retrieval_confidence [action clarify].

Definition assemble_grounded_response (user_message : string)
    (context_blocks : list ContextBlock) (retrieval_confidence : float) : Response :=
  (* Determine response behavior based on confidence thresholds *)
  if lt retrieval_confidence f0_55 then
    (* Low confidence - ask clarifying question *)
    mkResponse low_confidence_text [] retrieval_confidence [action clarify]
  else
    match context_blocks with
    | [] => mkResponse no_context_text [] retrieval_confidence [action clarify]
    | top_context :: _ =>
        (* Check for lead capture triggers *)
        let user_lower := lower user_message in
        if any_in lead_triggers user_lower then
          if ge retrieval_confidence f0_72 then
            (* Provide answer then collect lead *)
            mkResponse (lead_answer_text top_context) [lead_citation top_context]
              retrieval_confidence [collect_lead_action]
          else answer_from_context user_lower top_context context_blocks retrieval_confidence
        else answer_from_context user_lower top_context context_blocks retrieval_confidence
    end.

(** [chat_endpoint]: the confidence handed to the assembler, from the
    distances of the results of the vector search. *)
Definition retrieval_confidence (distances : list float) : float :=
  let avg_distance :=
    match distances with
    | [] => f1_0
    | _ :: _ => div (sum distances) (of_nat (List.length distances))
    end in
  max f0_1 (sub f1_0 (div avg_distance f2_0)).

End Production.

(** ** Dictionaries

    A [dict] with string keys keeps its items in insertion order;
    assigning to a key that is present keeps the key in its place. *)

Module PyDict.
Section Dict.
Context {V : Type}.

Definition dict := list (string * V).

Definition empty : dict := [].

(** [d.get(k)]. *)
Fixpoint get (k : string) (d : dict) : option V :=
  match d with
  | [] => None
  | (k', v) :: d' => if String.eqb k k' then Some v else get k d'
  end.

(** [k in d]. *)
Definition has (k : string) (d : dict) : bool :=
  match get k d with Some _ => true | None => false end.

(** [d[k] = v]. *)
Fixpoint set (k : string) (v : V) (d : dict) : dict :=
  match d with
  | [] => [(k, v)]
  | (k', v') :: d' =>
      if String.eqb k k' then (k, v) :: d' else (k', v') :: set k v d'
  end.

(** [d[k]] of a [defaultdict] whose missing values are [dflt]. *)
Definition get_default (dflt : V) (k : string) (d : dict) : V :=
  match get k d with Some v => v | None => dflt end.

(** [d.items()]. *)
Definition items (d : dict) : list (string * V) := d.

Definition keys (d : dict) : list string := map fst d.
End Dict.
Arguments dict : clear implicits.
End PyDict.

(** ** The demo server ([smart_demo_server.py]) *)

Module Demo.
Import PyStr PyFloat PyDict.

(** A scraped document: [doc.get('url', '')], [doc.get('title', '')]
    and [doc.get('content', '')]. *)
Record Doc : Type := mkDoc {
  doc_url : string;
  doc_title : string;
  doc_content : string
}.

(** A posting of the index; a search result is a copy of one with its
    [relevance_score]. *)
Record Posting : Type := mkPosting {
  p_url : string;
  p_title : string;
  p_content : string;
  p_score : float
}.

Record Candidate : Type := mkCandidate {
  c_url : string;
  c_title : string;
  c_content : string;
  c_score : float;
  relevance_score : float
}.

(** The two globals of the module. *)
Record Store : Type := mkStore {
  scraped_data : list Doc;
  indexed_content : dict (list Posting)
}.

(** [re.findall(r'\b\w+\b', text)]. *)
Definition re_word : Re.regex :=
  (Re.A Re.WordB :: Re.plus is_word ++ [Re.A Re.WordB])%list.

Definition words_of (text : string) : list string := Re.findall re_word text.

(** [indexed_content[word].append(posting)]. *)
Definition append_posting (word : string) (posting : Posting)
    (index : dict (list Posting)) : dict (list Posting) :=
  set word (get_default [] word index ++ [posting])%list index.

(** The body of the loop of [create_keyword_index] for one document. *)
Definition index_doc (index : dict (list Posting)) (doc : Doc) : dict (list Posting) :=
  let url := doc_url doc in
  let title := doc_title doc in
  let content := doc_content doc in
  (* Combine title and content for indexing *)
  let full_text := lower (title ++ " " ++ content) in
  (* Extract keywords *)
  let words := words_of full_text in
  (* Index by keywords *)
  fold_left
    (fun index word =>
       if (3 <? len word)%nat   (* Only index meaningful words *)
       then append_posting word (mkPosting url title (slice_to 500 content) f1_0) index
       else index)
    words index.

Definition create_keyword_index (st : Store) : Store :=
  mkStore (scraped_data st) (fold_left index_doc (scraped_data st) (indexed_content st)).

(** The store after [load_scraped_data] has read [docs] at start-up. *)
Definition load_scraped_data (docs : list Doc) : Store :=
  create_keyword_index (mkStore docs empty).

(** The two updates made for one posting that matches a query word. *)
Definition score_posting (acc : dict float * dict Posting) (doc : Posting)
  : dict float * dict Posting :=
  let (doc_scores, doc_info) := acc in
  let doc_id := p_url doc in
  (set doc_id (add (get_default zero doc_id doc_scores) f1_0) doc_scores,
   set doc_id doc doc_info).

Definition score_word (index : dict (list Posting))
    (acc : dict float * dict Posting) (word : string) : dict float * dict Posting :=
  match get word index with
  | Some postings => fold_left score_posting postings acc
  | None => acc
  end.

(** [sorted(items, key=lambda x: x[1], reverse=True)]: a stable sort,
    largest score first; items whose scores compare equal keep their
    order. *)
Fixpoint insert_desc (x : string * float) (l : list (string * float))
  : list (string * float) :=
  match l with
  | [] => [x]
  | y :: l' => if lt (snd x) (snd y) then y :: insert_desc x l' else x :: l
  end.

Fixpoint sorted_desc (l : list (string * float)) : list (string * float) :=
  match l with
  | [] => []
  | x :: l' => insert_desc x (sorted_desc l')
  end.

(** [l[:n]] for an integer [n] of either sign. *)
Definition slice_to_int {X : Type} (n : Z) (l : list X) : list X :=
  if (0 <=? n)%Z then firstn (Z.to_nat n) l
  else firstn (List.length l - Z.to_nat (- n)) l.

(** [doc_scores] and [doc_info] after the scoring loop. *)
Definition score_documents (index : dict (list Posting)) (query_words : list string)
  : dict float * dict Posting :=
  fold_left (score_word index) query_words (empty, empty).

(** [sorted_docs]. *)
Definition sorted_docs (index : dict (list Posting)) (query_words : list string)
  : list (string * float) :=
  sorted_desc (items (fst (score_documents index query_words))).

Definition search_content (st : Store) (query : string) (max_results : Z)
  : list Candidate :=
  match scraped_data st with
  | [] => []
  | _ :: _ =>
      let query_words := words_of (lower query) in
      match query_words with
      | [] => []
      | _ :: _ =>
          (* Score documents based on keyword matches *)
          let doc_info := snd (score_documents (indexed_content st) query_words) in
          (* Sort by score and return top results *)
          let sorted_docs := sorted_docs (indexed_content st) query_words in
          flat_map
            (fun '(doc_id, score) =>
               match get doc_id doc_info with
               | Some doc =>
                   [mkCandidate (p_url doc) (p_title doc) (p_content doc) (p_score doc)
                      (div score (of_nat (List.length query_words)))]  (* Normalize score *)
               | None => []
               end)
            (slice_to_int max_results sorted_docs)
      end
  end.

(** [chat_endpoint]: the match score handed to the assembler. *)
Definition match_score (search_results : list Candidate) : float :=
  let avg_relevance :=
    match search_results with
    | [] => zero
    | _ :: _ =>
        div (sum (map relevance_score search_results))
            (of_nat (List.length search_results))
    end in
  min f1_0 avg_relevance.

(** [chat_endpoint]: the context blocks built from the results. *)
Definition context_blocks_of (search_results : list Candidate) : list ContextBlock :=
  map (fun result => mkBlock (c_title result) (c_url result) "" (c_content result))
      search_results.

Definition greetings : list string :=
  ["hello"; "hi"; "hey"; "how are you"; "how are you?"; "good morning"; "good afternoon"].

Definition greeting_text : string :=
  "Hello! I'm the Core DNA assistant. I can help you learn about Core DNA's comprehensive digital commerce platform, including e-commerce features, content management, integrations, pricing, and more. What would you like to know about Core DNA?".

Definition what_is_text : string :=
  "Core DNA is a comprehensive digital commerce platform that enables businesses to create exceptional customer experiences. The platform combines e-commerce capabilities, content management, customer engagement tools, and seamless integrations to help businesses grow their online presence and sales. Core DNA serves businesses of all sizes with flexible, scalable solutions for modern digital commerce.".

Definition features_text : string :=
  "Core DNA offers a comprehensive suite of digital commerce features including: e-commerce platform with advanced shopping cart functionality, content management system, customer engagement tools, payment gateway integrations, inventory management, order processing, analytics and reporting, multi-channel selling capabilities, and seamless third-party integrations. The platform is designed to help businesses of all sizes create exceptional online customer experiences.".

Definition pricing_text : string :=
  "Core DNA offers flexible pricing plans designed to accommodate businesses of all sizes. The platform provides scalable solutions with various pricing tiers based on your specific needs, transaction volume, and required features. For detailed pricing information and to get a custom quote tailored to your business requirements, I recommend contacting Core DNA's sales team directly. They can provide accurate pricing based on your specific use case.".

Definition ecommerce_text : string :=
  "Core DNA provides a powerful e-commerce platform that includes advanced shopping cart functionality, secure payment processing, inventory management, order tracking, customer account management, and multi-channel selling capabilities. The platform supports various payment gateways, offers flexible product catalog management, and provides comprehensive analytics to help businesses optimize their online sales performance.".

Definition integrations_text : string :=
  "Core DNA offers extensive integration capabilities with over 100+ third-party applications and services. The platform provides APIs for custom integrations and supports connections with popular CRM systems, marketing tools, payment gateways, shipping providers, analytics platforms, and accounting software. This allows businesses to create a seamless ecosystem that connects all their essential business tools.".

Definition no_information_text : string :=
  "I don't have specific information about that topic in my Core DNA knowledge base. Could you ask about Core DNA's e-commerce platform, content management features, pricing plans, or integrations?".

Definition no_context_text : string :=
  "Let me help you learn about Core DNA. You can ask me about e-commerce features, content management, pricing plans, integrations, or specific platform capabilities. What interests you most?".

Definition feature_words : list string :=
  ["feature"; "capability"; "function"; "what does"; "what can"].
Definition pricing_words : list string :=
  ["price"; "cost"; "pricing"; "plan"; "subscription"].
Definition ecommerce_words : list string :=
  ["ecommerce"; "e-commerce"; "online store"; "shop"; "selling"].
Definition integration_words : list string :=
  ["integration"; "connect"; "api"; "third party"].

Definition lead_triggers : list string :=
  ["demo"; "quote"; "pricing"; "contact"; "sales"; "budget"; "timeline"; "implementation"].

(** [block['title'].replace('Core dna', 'Core DNA')]. *)
Definition display_title (block : ContextBlock) : string :=
  replace "Core dna" "Core DNA" (cb_title block).

(** One entry of [citations], built from a block. *)
Definition citation_of (block : ContextBlock) : Citation :=
  let clean_quote := Cleaner.clean_content (cb_excerpt block) in
  mkCitation (display_title block) (cb_url block)
    (if (100 <? len clean_quote)%nat
     then slice_to 100 clean_quote ++ "..."
     else clean_quote).

Definition lead_answer_text (user_message : string) (top_context : ContextBlock) : string :=
  let cleaned_content := Cleaner.clean_content (cb_excerpt top_context) in
  "Regarding " ++ lower user_message ++ ": " ++ slice_to 200 cleaned_content
  ++ "... Demo mode cannot access live tools. To discuss pricing and get a demo, please contact Core DNA directly.".

Definition lead_citation (top_context : ContextBlock) : Citation :=
  let clean_quote := Cleaner.clean_content (cb_excerpt top_context) in
  mkCitation (display_title top_context) (cb_url top_context)
    (slice_to 100 clean_quote ++ "...").

(** The text of the full answer, by query intent. *)
Definition full_answer_text (user_lower : string) (cleaned_content : string)
    (context_blocks : list ContextBlock) : string :=
  if any_in ["what is"; "what are"; "define"; "explain"] user_lower then
    let response_text := "Based on Core DNA's documentation: " ++ cleaned_content in
    match context_blocks with
    | _ :: second :: _ =>
        if (len cleaned_content <? 200)%nat
        then
          let additional_content := Cleaner.clean_content (cb_excerpt second) in
          response_text ++ " Additionally, " ++ slice_to 150 additional_content ++ "..."
        else response_text
    | _ => response_text
    end
  else if any_in ["how"; "steps"; "process"; "setup"; "configure"] user_lower then
    "According to Core DNA's documentation: " ++ cleaned_content
  else if any_in ["feature"; "capability"; "function"; "can"; "does"] user_lower then
    let response_text := "Core DNA provides: " ++ cleaned_content in
    match context_blocks with
    | _ :: second :: _ =>
        if (len cleaned_content <? 200)%nat
        then
          let additional_content := Cleaner.clean_content (cb_excerpt second) in
          response_text ++ " The platform also offers: " ++ slice_to 150 additional_content ++ "..."
        else response_text
    | _ => response_text
    end
  else if any_in ["price"; "cost"; "pricing"; "plan"] user_lower then
    let response_text := "Regarding Core DNA pricing: " ++ cleaned_content in
    if negb (contains "contact" (lower response_text))
    then response_text ++ " For detailed pricing information and custom quotes, I recommend contacting Core DNA's sales team directly."
    else response_text
  else
    (* General query *)
    "From Core DNA's documentation: " ++ cleaned_content.

Definition brief_answer_text (cleaned_content : string) : string :=
  "Based on Core DNA's documentation: " ++ slice_to 200 cleaned_content
  ++ "... Would you like more specific information about any particular aspect?".

(** The part of the function after the lead-capture check. *)
Definition answer_from_context (user_lower : string) (top_context : ContextBlock)
    (context_blocks : list ContextBlock) (match_score : float) : Response :=
  (* Clean and prepare content *)
  let cleaned_content := Cleaner.clean_content (cb_excerpt top_context) in
  (* Create citations for referenced sources *)
  let citations := map citation_of (take 3 context_blocks) in
  (* Generate response based on query intent and confidence *)
  if ge match_score f0_72 then
    (* High confidence - full answer *)
    mkResponse (full_answer_text user_lower cleaned_content context_blocks)
      citations match_score [action none]
  else
    (* 0.55-0.71 - brief answer + clarifying question *)
    mkResponse (brief_answer_text cleaned_content)
      (take 1 citations) match_score [action clarify].

Definition assemble_grounded_response (user_message : string)
    (context_blocks : list ContextBlock) (match_score : float) : Response :=
  (* Handle basic greetings and conversational queries *)
  let user_lower := strip (lower user_message) in
  if mem user_lower greetings then
    mkResponse greeting_text [] f1_0 [action none]
  (* Handle very general Core DNA questions *)
  else if contains "what is core dna" user_lower || contains "what is coredna" user_lower then
    mkResponse what_is_text [] f1_0 [action none]
  (* Handle feature questions with better fallbacks *)
  else if any_in feature_words user_lower then
    mkResponse features_text [] f0_9 [action none]
  (* Handle pricing questions with better information *)
  else if any_in pricing_words user_lower then
    mkResponse pricing_text [] f0_9 [collect_lead_action]
  (* Handle ecommerce questions *)
  else if any_in ecommerce_words user_lower then
    mkResponse ecommerce_text [] f0_9 [action none]
  (* Handle integration questions *)
  else if any_in integration_words user_lower then
    mkResponse integrations_text [] f0_9 [action none]
  (* Determine response behavior based on confidence thresholds *)
  else if lt match_score f0_55 && is_nil context_blocks then
    mkResponse no_information_text [] match_score [action clarify]
  else
    match context_blocks with
    | [] => mkResponse no_context_text [] f0_7 [action clarify]
    | top_context :: _ =>
        (* Check for lead capture triggers *)
        if any_in lead_triggers user_lower then
          if ge match_score f0_72 then
            mkResponse (lead_answer_text user_message top_context)
              [lead_citation top_context] match_score [collect_lead_action]
          else answer_from_context user_lower top_context context_blocks match_score
        else answer_from_context user_lower top_context context_blocks match_score
    end.

End Demo.

(** ** Notions used in the statements *)

(** The type of the first action of a response, [actions[0].type]. *)
Definition first_action (r : Response) : option ActionType :=
  match actions r with
  | a :: _ => Some (act_type a)
  | [] => None
  end.


(** The order of the floats that are not NaN: a float is ranked by its
    sign class, then by its exponent, then by its mantissa. *)
Module FloatOrder.
Import PyFloat.

Definition ordered (a : float) : Prop := is_nan a = false.

Definition key (a : float) : Z * Z * Z :=
  match a with
  | S754_zero _ => (0, 0, 0)%Z
  | S754_infinity s => ((if s then -2 else 2), 0, 0)%Z
  | S754_nan => (0, 0, 0)%Z
  | S754_finite s m e =>
      if s then (-1, - e, Zneg m)%Z else (1, e, Zpos m)%Z
  end.

Definition lexcmp (x y : Z * Z * Z) : comparison :=
  let '(x1, x2, x3) := x in
  let '(y1, y2, y3) := y in
  match (x1 ?= y1)%Z with
  | Eq => match (x2 ?= y2)%Z with
          | Eq => (x3 ?= y3)%Z
          | c => c
          end
  | c => c
  end.

Definition lexlt (x y : Z * Z * Z) : Prop :=
  let '(x1, x2, x3) := x in
  let '(y1, y2, y3) := y in
  (x1 < y1 \/ (x1 = y1 /\ (x2 < y2 \/ (x2 = y2 /\ x3 < y3))))%Z.

(** [a] does not come after [b] in a list sorted largest first. *)
Definition not_below (a b : float) : Prop := lt a b = false.

(** The scores [a] and [b] tie: neither is smaller. *)
Definition tie (a b : float) : bool := negb (lt a b) && negb (lt b a).
End FloatOrder.

Module DemoSpec.
Import PyStr PyFloat PyDict Demo.

(** The answer of the rules of the demo assembler that look at the
    query alone, in their order; [None] when none applies. *)
Definition canned_response (user_lower : string) : option Response :=
  if mem user_lower greetings then
    Some (mkResponse greeting_text [] f1_0 [action none])
  else if contains "what is core dna" user_lower || contains "what is coredna" user_lower then
    Some (mkResponse what_is_text [] f1_0 [action none])
  else if any_in feature_words user_lower then
    Some (mkResponse features_text [] f0_9 [action none])
  else if any_in pricing_words user_lower then
    Some (mkResponse pricing_text [] f0_9 [collect_lead_action])
  else if any_in ecommerce_words user_lower then
    Some (mkResponse ecommerce_text [] f0_9 [action none])
  else if any_in integration_words user_lower then
    Some (mkResponse integrations_text [] f0_9 [action none])
  else None.

(** [user_message.lower().strip()]. *)
Definition normalized (user_message : string) : string :=
  strip (lower user_message).

(** The postings met by the scoring loop, in the order it meets them. *)
Definition postings_of (index : dict (list Posting)) (word : string) : list Posting :=
  match get word index with Some postings => postings | None => [] end.

Definition hits (index : dict (list Posting)) (query_words : list string) : list Posting :=
  flat_map (postings_of index) query_words.

(** The distinct strings of a list, in the order of their first
    occurrences. *)
Definition first_seen (l : list string) : list string :=
  fold_left (fun acc u => if mem u acc then acc else (acc ++ [u])%list) l [].

(** The mean of a non-empty list of floats. *)
Definition mean (l : list float) : float :=
  div (sum l) (of_nat (List.length l)).

(** What a result shows of a scored document. *)
Definition shown (n : nat) (x : string * float) : string * float :=
  (fst x, div (snd x) (of_nat n)).

Definition summary (c : Candidate) : string * float :=
  (c_url c, relevance_score c).

(** No score of the list is a NaN. *)
Definition scored_ok (l : list (string * float)) : Prop :=
  Forall (fun x => FloatOrder.ordered (snd x)) l.

(** [x] may stand before [y] in the ranking. *)
Definition desc (x y : string * float) : Prop :=
  FloatOrder.not_below (snd x) (snd y).

(** What the scoring loop keeps true of [doc_scores] and [doc_info]:
    no score is NaN, and every scored document has its posting. *)
Definition scoring_inv (acc : dict float * dict Posting) : Prop :=
  scored_ok (fst acc)
  /\ forall id, has id (fst acc) = true ->
                exists doc, get id (snd acc) = Some doc /\ p_url doc = id.
(** The number of documents that the scoring loop of a search has
    scored: the length of [doc_scores]. *)
Definition scored (st : Demo.Store) (query : string) : nat :=
  List.length
    (keys (fst (score_documents (indexed_content st) (words_of (lower query))))).

End DemoSpec.

Module CleanerSpec.
Import PyStr Cleaner.

(** What is left of [s] after its leading characters of class [p]. *)
Fixpoint skip_class (p : ascii -> bool) (s : string) : string :=
  match s with
  | "" => ""
  | String c s' => if p c then skip_class p s' else s
  end.

(** No character of [s] is of class [p]. *)
Fixpoint free_of (p : ascii -> bool) (s : string) : bool :=
  match s with
  | "" => true
  | String c s' => negb (p c) && free_of p s'
  end.

(** A sentence as [clean_content] keeps it: stripped, without [.],
    [!] or [?], and passing the test [useful]. *)
Definition kept (u : string) : Prop :=
  free_of is_punct u = true /\ strip u = u /\ useful u = true.
End CleanerSpec.

Module WhitespaceSpec.
Import PyStr.

(** A white-space character other than the plain space: a tab, a line
    break and the like. *)
Definition odd_space (c : ascii) : bool := is_space c && negb (Ascii.eqb c " ").

(** The white space of [s] is made of plain spaces, none next to
    another. *)
Fixpoint tidy (s : string) : bool :=
  match s with
  | "" => true
  | String c s' =>
      (if is_space c
       then Ascii.eqb c " "
            && match s' with "" => true | String d _ => negb (is_space d) end
       else true)
      && tidy s'
  end.
End WhitespaceSpec.

Module IndexSpec.
Import PyStr PyFloat PyDict Demo.

(** The posting that [create_keyword_index] writes for a document. *)
Definition posting_of (doc : Doc) : Posting :=
  mkPosting (doc_url doc) (doc_title doc) (slice_to 500 (doc_content doc)) f1_0.

(** The words found in a document: those of its title and content,
    lower-cased. *)
Definition doc_words (doc : Doc) : list string :=
  words_of (lower (doc_title doc ++ " " ++ doc_content doc)).

(** An entry of the index is sound for a corpus: its key has more than
    three characters and each of its postings is that of a document of
    the corpus in which the key occurs. *)
Definition entry_sound (docs : list Doc) (entry : string * list Posting) : Prop :=
  3 < len (fst entry)
  /\ Forall (fun p => exists doc, In doc docs /\ In (fst entry) (doc_words doc)
                                  /\ p = posting_of doc)
            (snd entry).

(** The index lists posting [p] under [word]. *)
Definition posted (index : dict (list Posting)) (word : string) (p : Posting) : Prop :=
  exists postings, get word index = Some postings /\ In p postings.

(** A result shows a document. *)
Definition shows (c : Candidate) (doc : Doc) : Prop :=
  c_url c = doc_url doc /\ c_title c = doc_title doc
  /\ c_content c = slice_to 500 (doc_content doc) /\ c_score c = f1_0.

(** The query shares a word of more than three characters with the
    document. *)
Definition shares_word (query : string) (doc : Doc) : Prop :=
  exists w, In w (words_of (lower query)) /\ 3 < len w /\ In w (doc_words doc).
End IndexSpec.

(** ** The endpoints

    A request is handled inside [try ... except Exception], which turns
    every exception, an [HTTPException] raised in the body included,
    into the answer 500. *)

Record ChatRequest : Type := mkRequest {
  message : string;
  conversation_id : option string
}.

Record ChatResponse : Type := mkChatResponse {
  response : string;
  chat_conversation_id : string;
  sources : list string;
  confidence_score : option PyFloat.float;
  structured_response : option Response
}.

(** What an endpoint gives: a value, or an HTTP error with its status. *)
Inductive outcome (X : Type) : Type :=
| Ok (x : X)
| HTTPError (status : nat).
Arguments Ok {X} x.
Arguments HTTPError {X} status.

(** [request.conversation_id or prefix + now]: an id that is absent or
    empty is replaced; [now] is the formatted time of the request. *)
Definition conversation_id_or (prefix now : string) (request : ChatRequest) : string :=
  match conversation_id request with
  | Some id => if PyStr.is_empty id then prefix ++ now else id
  | None => prefix ++ now
  end.

Module DemoServer.
Import PyStr PyFloat PyDict Demo.

(** [chat_endpoint] of [smart_demo_server.py]. *)
Definition chat_endpoint (st : Store) (now : string) (request : ChatRequest)
  : ChatResponse :=
  (* Search for relevant content *)
  let search_results := search_content st (message request) 3 in
  (* Convert search results to context blocks format *)
  let context_blocks := context_blocks_of search_results in
  (* Calculate match score from search results *)
  let match_score := match_score search_results in
  (* Generate response using strict assembler *)
  let demo_response :=
    assemble_grounded_response (message request) context_blocks match_score in
  (* Extract sources from citations *)
  let sources := map cit_url (citations demo_response) in
  let sources :=
    if is_nil sources
    then filter (fun url => negb (is_empty url)) (map c_url search_results)
    else sources in
  let conversation_id := conversation_id_or "smart_demo_" now request in
  mkChatResponse (text demo_response) conversation_id
    (take 3 sources)   (* Limit to top 3 sources *)
    (Some (confidence demo_response)) (Some demo_response).

(** An entry of the reply of [search_endpoint]. *)
Record Preview : Type := mkPreview {
  pv_title : string;
  pv_url : string;
  content_preview : string;
  pv_relevance_score : float
}.

Record SearchReply : Type := mkSearchReply {
  sr_query : string;
  results_count : nat;
  sr_results : list Preview
}.

(** [search_endpoint] of [smart_demo_server.py]. *)
Definition search_endpoint (st : Store) (q : string) (limit : Z) : SearchReply :=
  let results := search_content st q limit in
  mkSearchReply q (List.length results)
    (map (fun r => mkPreview (c_title r) (c_url r)
                     (slice_to 200 (c_content r) ++ "...") (relevance_score r))
         results).

(** The reply of [content_stats]: [{"error": "No data loaded"}], or the
    statistics. *)
Inductive StatsReply : Type :=
| NoDataLoaded
| Stats (total_documents : nat) (content_types : dict nat)
        (total_content_length : nat) (average_content_length : nat)
        (indexed_keywords : nat).

(** The content type counted for a document, from its url. *)
Definition content_type_of (url : string) : string :=
  if contains "/blogs/" url then "blog"
  else if contains "/all-features/" url then "features"
  else if contains "/customers/" url then "case_studies"
  else if contains "/guides/" url then "guides"
  else "other".

(** The body of the loop of [content_stats] for one document. *)
Definition count_doc (acc : dict nat * nat) (doc : Doc) : dict nat * nat :=
  let (content_types, total_content_length) := acc in
  let type := content_type_of (doc_url doc) in
  (set type (get_default 0 type content_types + 1) content_types,
   total_content_length + len (doc_content doc)).

(** [content_stats] of [smart_demo_server.py]. *)
Definition content_stats (st : Store) : StatsReply :=
  match scraped_data st with
  | [] => NoDataLoaded
  | _ :: _ =>
      (* Analyze content types *)
      let (content_types, total_content_length) :=
        fold_left count_doc (scraped_data st) (empty, 0) in
      Stats (List.length (scraped_data st)) content_types total_content_length
        (total_content_length / List.length (scraped_data st))
        (List.length (indexed_content st))
  end.

End DemoServer.

Module ProductionServer.
Import PyStr PyFloat.

(** The metadata of a chunk; a key may be missing. *)
Record Metadata : Type := mkMetadata {
  md_title : option string;
  md_source_url : option string;
  md_last_updated : option string
}.

(** A result of [ChromaVectorStore.query] as [chat_endpoint] calls it:
    [{text, distance, metadata}], where the metadata may be [None]. *)
Record SearchResult : Type := mkSearchResult {
  sr_text : string;
  sr_distance : float;
  sr_metadata : option Metadata
}.

Definition or_default (dflt : string) (o : option string) : string :=
  match o with Some s => s | None => dflt end.

(** The context block of a result; [None] when building it raises
    (metadata [None], or no ['source_url'] in it). *)
Definition context_block_of (result : SearchResult) : option ContextBlock :=
  match sr_metadata result with
  | None => None
  | Some md =>
      match md_source_url md with
      | None => None
      | Some url =>
          Some (mkBlock (or_default "Core DNA Documentation" (md_title md)) url
                  (or_default "" (md_last_updated md)) (sr_text result))
      end
  end.

(** A loop that builds a list and raises when building an item does. *)
Fixpoint collect {X Y : Type} (f : X -> option (list Y)) (l : list X)
  : option (list Y) :=
  match l with
  | [] => Some []
  | x :: l' =>
      match f x with
      | None => None
      | Some ys =>
          match collect f l' with
          | None => None
          | Some rest => Some (ys ++ rest)%list
          end
      end
  end.

(** The item of the fallback list of sources for a result: its
    ['source_url'] when it has a non-empty one. *)
Definition fallback_source (result : SearchResult) : option (list string) :=
  match sr_metadata result with
  | None => None
  | Some md =>
      match md_source_url md with
      | Some url => Some (if is_empty url then [] else [url])
      | None => Some []
      end
  end.

(** [chat_endpoint] of [production_server.py]; [vector_store] is [None]
    when the store is not available, and else holds the results of
    [vector_store.query(request.message, n_results=5)]. *)
Definition chat_endpoint (vector_store : option (list SearchResult))
    (now : string) (request : ChatRequest) : outcome ChatResponse :=
  match vector_store with
  | None => HTTPError 500   (* the 503 raised here is caught below *)
  | Some search_results =>
      (* Convert search results to context blocks format *)
      match collect (fun r => option_map (fun b => [b]) (context_block_of r))
              (take 3 search_results) with
      | None => HTTPError 500
      | Some context_blocks =>
          (* Calculate retrieval confidence *)
          let retrieval_confidence :=
            Production.retrieval_confidence (map sr_distance search_results) in
          (* Generate response using strict assembler *)
          let rag_response :=
            Production.assemble_grounded_response (message request)
              context_blocks retrieval_confidence in
          (* Extract sources from citations *)
          let sources := map cit_url (citations rag_response) in
          let sources :=
            if is_nil sources then collect fallback_source search_results
            else Some sources in
          match sources with
          | None => HTTPError 500
          | Some sources =>
              let conversation_id := conversation_id_or "rag_prod_" now request in
              Ok (mkChatResponse (text rag_response) conversation_id
                    (take 3 sources)   (* Limit to top 3 sources *)
                    (Some (confidence rag_response)) (Some rag_response))
          end
      end
  end.

(** An entry of the reply of [search_endpoint]. *)
Record Hit : Type := mkHit {
  hit_text : string;
  hit_source_url : string;
  hit_relevance_score : float;
  hit_distance : float
}.

Record SearchHits : Type := mkSearchHits {
  sh_query : string;
  sh_results_count : nat;
  sh_results : list Hit
}.

(** The entry for a result; [None] when building it raises (metadata
    [None], or no ['source_url'] in it). *)
Definition hit_of (r : SearchResult) : option Hit :=
  match sr_metadata r with
  | None => None
  | Some md =>
      match md_source_url md with
      | None => None
      | Some url =>
          Some (mkHit (sr_text r) url
                  (PyFloat.sub f1_0 (sr_distance r))   (* Convert distance to relevance *)
                  (sr_distance r))
      end
  end.

(** [search_endpoint] of [production_server.py]; [vector_store] is
    [None] when the store is not available, and else holds the results
    of [vector_store.query(q, n_results=limit)]. The test of the store
    stands before the [try], so its 503 is not caught. *)
Definition search_endpoint (vector_store : option (list SearchResult))
    (q : string) : outcome SearchHits :=
  match vector_store with
  | None => HTTPError 503
  | Some results =>
      match collect (fun r => option_map (fun h => [h]) (hit_of r)) results with
      | None => HTTPError 500
      | Some hits => Ok (mkSearchHits q (List.length results) hits)
      end
  end.

End ProductionServer.

Module EndpointSpec.
Import PyStr PyFloat PyDict ProductionServer.

(** The result has metadata with a ['source_url']. *)
Definition has_source_url (result : SearchResult) : bool :=
  match sr_metadata result with
  | Some md => match md_source_url md with Some _ => true | None => false end
  | None => false
  end.

(** The ['source_url'] of a result, when it has one. *)
Definition source_url_of (result : SearchResult) : option string :=
  match sr_metadata result with
  | Some md => md_source_url md
  | None => None
  end.

(** The sum of the counts of a dictionary. *)
Definition total_count (d : dict nat) : nat :=
  fold_right (fun kv n => snd kv + n) 0 d.

(** The total length of the contents of a corpus. *)
Definition content_length (docs : list Demo.Doc) : nat :=
  fold_right (fun doc n => len (Demo.doc_content doc) + n) 0 docs.

Definition content_types : list string :=
  ["blog"; "features"; "case_studies"; "guides"; "other"].
End EndpointSpec.

(** ** Sample inputs ([test_strict_json.py]) *)

(** The context blocks of the format test of the repository. *)
Definition ecommerce_block : ContextBlock :=
  mkBlock "Core DNA E-commerce Platform" "https://coredna.com/features/ecommerce"
    "2024-01-15"
    "Core DNA provides a comprehensive e-commerce platform with advanced features for online stores, including inventory management, payment processing, and customer analytics.".

Definition integrations_block : ContextBlock :=
  mkBlock "Core DNA Integration Capabilities" "https://coredna.com/integrations"
    "2024-01-10"
    "Connect Core DNA with over 100 third-party applications including CRM systems, marketing tools, and payment gateways.".

(** * Properties *)

(** ** The order of floats *)

Section FloatOrderFacts.
Import PyFloat FloatOrder.

Lemma lexcmp_lt x y : lexcmp x y = Lt <-> lexlt x y.
Proof.
  destruct x as [[x1 x2] x3], y as [[y1 y2] y3]; unfold lexcmp, lexlt.
  destruct (Z.compare_spec x1 y1); destruct (Z.compare_spec x2 y2);
    destruct (Z.compare_spec x3 y3); split; intros; try discriminate;
    try reflexivity; lia.
Qed.

Lemma lexcmp_gt x y : lexcmp x y = Gt <-> lexlt y x.
Proof.
  destruct x as [[x1 x2] x3], y as [[y1 y2] y3]; unfold lexcmp, lexlt.
  destruct (Z.compare_spec x1 y1); destruct (Z.compare_spec x2 y2);
    destruct (Z.compare_spec x3 y3); split; intros; try discriminate;
    try reflexivity; lia.
Qed.

Lemma lexlt_trans x y z : lexlt x y -> lexlt y z -> lexlt x z.
Proof.
  destruct x as [[x1 x2] x3], y as [[y1 y2] y3], z as [[z1 z2] z3].
  unfold lexlt; lia.
Qed.

Lemma lexlt_asym x y : lexlt x y -> ~ lexlt y x.
Proof.
  destruct x as [[x1 x2] x3], y as [[y1 y2] y3]. unfold lexlt; lia.
Qed.

(** Neither [x < y] nor [y < z] fails to hold: then [x < z] fails too. *)
Lemma lexlt_neg_trans x y z : ~ lexlt x y -> ~ lexlt y z -> ~ lexlt x z.
Proof.
  destruct x as [[x1 x2] x3], y as [[y1 y2] y3], z as [[z1 z2] z3].
  unfold lexlt; lia.
Qed.

Lemma SFcompare_key a b :
  ordered a -> ordered b -> SFcompare a b = Some (lexcmp (key a) (key b)).
Proof.
  unfold ordered.
  destruct a as [s | s | | s m e], b as [s' | s' | | s' m' e'];
    simpl; intros Ha Hb; try discriminate;
    try (destruct s; reflexivity); try (destruct s'; reflexivity);
    try (destruct s, s'; reflexivity).
  destruct s, s'; simpl; try reflexivity.
  rewrite Z.compare_opp, (Z.compare_antisym e e').
  destruct (e ?= e')%Z; reflexivity.
Qed.

Lemma lt_spec a b :
  lt a b = true <-> ordered a /\ ordered b /\ lexlt (key a) (key b).
Proof.
  unfold lt, SFltb. split.
  - intros H.
    assert (Ha : ordered a) by (destruct a; try reflexivity; discriminate).
    assert (Hb : ordered b)
      by (destruct b; try reflexivity; destruct a; discriminate).
    rewrite (SFcompare_key _ _ Ha Hb) in H.
    repeat split; trivial. apply lexcmp_lt.
    destruct (lexcmp (key a) (key b)); congruence.
  - intros (Ha & Hb & H). rewrite (SFcompare_key _ _ Ha Hb).
    apply lexcmp_lt in H. now rewrite H.
Qed.

Lemma le_spec a b :
  le a b = true <-> ordered a /\ ordered b /\ ~ lexlt (key b) (key a).
Proof.
  unfold le, SFleb. split.
  - intros H.
    assert (Ha : ordered a) by (destruct a; try reflexivity; discriminate).
    assert (Hb : ordered b)
      by (destruct b; try reflexivity; destruct a; discriminate).
    rewrite (SFcompare_key _ _ Ha Hb) in H.
    repeat split; trivial. intros Hlt. apply lexcmp_gt in Hlt.
    rewrite Hlt in H. discriminate.
  - intros (Ha & Hb & H). rewrite (SFcompare_key _ _ Ha Hb).
    destruct (lexcmp (key a) (key b)) eqn:E; trivial.
    apply lexcmp_gt in E. contradiction.
Qed.

Lemma lt_false_spec a b :
  ordered a -> ordered b -> (lt a b = false <-> ~ lexlt (key a) (key b)).
Proof.
  intros Ha Hb. split.
  - intros H Hlt.
    assert (lt a b = true) by (apply lt_spec; auto). congruence.
  - intros H. destruct (lt a b) eqn:E; trivial.
    apply lt_spec in E. tauto.
Qed.

(** [a < b] excludes [b <= a], and [a <= b] excludes [b < a]. *)
Lemma lt_not_ge a b : lt a b = true -> ge a b = false.
Proof.
  intros H. apply lt_spec in H. destruct H as (Ha & Hb & H).
  unfold ge. destruct (le b a) eqn:E; trivial.
  apply le_spec in E. tauto.
Qed.

Lemma le_not_lt a b : le a b = true -> lt b a = false.
Proof.
  intros H. apply le_spec in H. destruct H as (Ha & Hb & H).
  apply lt_false_spec; auto.
Qed.

Lemma lt_asym a b : lt a b = true -> lt b a = false.
Proof.
  intros H. apply lt_spec in H. destruct H as (Ha & Hb & H).
  apply lt_false_spec; auto. now apply lexlt_asym.
Qed.

Lemma lt_le_trans a b c : lt a b = true -> le b c = true -> lt a c = true.
Proof.
  intros H1 H2. apply lt_spec in H1. apply le_spec in H2.
  destruct H1 as (Ha & Hb & H1), H2 as (_ & Hc & H2).
  apply lt_spec. repeat split; trivial.
  destruct (key a) as [[x1 x2] x3], (key b) as [[y1 y2] y3],
    (key c) as [[z1 z2] z3]. unfold lexlt in *. lia.
Qed.

(** A confidence of at least 0.72 is not below 0.55. *)
Lemma ge_072_not_lt_055 c : ge c f0_72 = true -> lt c f0_55 = false.
Proof.
  intros H. destruct (lt c f0_55) eqn:E; trivial.
  assert (X : lt c c = true).
  { eapply lt_le_trans; [exact E|].
    unfold ge in H. apply le_spec in H. destruct H as (H1 & H2 & H3).
    apply le_spec. repeat split; trivial.
    intros Hlt. apply H3. eapply lexlt_trans; [exact Hlt|].
    vm_compute. right. split; [reflexivity|]. right. split; [reflexivity|].
    reflexivity. }
  apply lt_asym in X as Y. congruence.
Qed.

Lemma not_below_trans a b c :
  ordered a -> ordered b -> ordered c ->
  not_below a b -> not_below b c -> not_below a c.
Proof.
  unfold not_below. intros Ha Hb Hc H1 H2.
  apply lt_false_spec in H1, H2; trivial.
  apply lt_false_spec; trivial.
  eapply lexlt_neg_trans; eauto.
Qed.

End FloatOrderFacts.

(** ** The assemblers *)

Section AssemblerFacts.
Import PyStr PyFloat FloatOrder Demo DemoSpec.

(** The demo assembler answers with the canned response whenever one
    of the rules on the query alone applies. *)
Lemma demo_canned_some q blocks c r :
  canned_response (normalized q) = Some r ->
  Demo.assemble_grounded_response q blocks c = r.
Proof.
  unfold canned_response, normalized, Demo.assemble_grounded_response.
  repeat match goal with
         | |- context [if ?b then _ else _] => destruct b
         end; intros H; try discriminate; now inversion H.
Qed.

(** Otherwise it goes on to the rules on the candidates and the score. *)
Lemma demo_canned_none q blocks c :
  canned_response (normalized q) = None ->
  Demo.assemble_grounded_response q blocks c =
    if lt c f0_55 && is_nil blocks then
      mkResponse no_information_text [] c [action clarify]
    else
      match blocks with
      | [] => mkResponse Demo.no_context_text [] f0_7 [action clarify]
      | top_context :: _ =>
          if any_in Demo.lead_triggers (normalized q) then
            if ge c f0_72 then
              mkResponse (Demo.lead_answer_text q top_context)
                [Demo.lead_citation top_context] c [collect_lead_action]
            else Demo.answer_from_context (normalized q) top_context blocks c
          else Demo.answer_from_context (normalized q) top_context blocks c
      end.
Proof.
  unfold canned_response, normalized, Demo.assemble_grounded_response.
  destruct (mem _ greetings); [discriminate|].
  destruct (_ || _); [discriminate|].
  destruct (any_in feature_words _); [discriminate|].
  destruct (any_in pricing_words _); [discriminate|].
  destruct (any_in ecommerce_words _); [discriminate|].
  destruct (any_in integration_words _); [discriminate|].
  reflexivity.
Qed.

(** C1, as amended.  Below 0.55 the production assembler answers with
    a clarifying question, no citation and the confidence it was
    given, whatever the query and the candidates; the demo assembler
    does so when the candidate list is empty and no rule on the query
    alone (greeting, "what is core dna", topic shortcut) applies. *)
Theorem low_confidence_gate (q : string) (blocks : list ContextBlock) (c : float)
    (Hlow : lt c f0_55 = true) :
  (let r := Production.assemble_grounded_response q blocks c in
   first_action r = Some clarify /\ citations r = [] /\ confidence r = c
   /\ text r = Production.low_confidence_text)
  /\ (canned_response (normalized q) = None ->
      let r := Demo.assemble_grounded_response q [] c in
      first_action r = Some clarify /\ citations r = [] /\ confidence r = c
      /\ text r = Demo.no_information_text).
Proof.
  split.
  - unfold Production.assemble_grounded_response. rewrite Hlow. simpl. auto.
  - intros Hq. rewrite (demo_canned_none _ _ _ Hq), Hlow. simpl. auto.
Qed.

Lemma low_confidence_gate_witness :
  lt f0_34 f0_55 = true
  /\ canned_response (normalized "What about quantum computing?") = None
  /\ first_action (Production.assemble_grounded_response
                     "What about quantum computing?" [] f0_34) = Some clarify
  /\ first_action (Demo.assemble_grounded_response
                     "What about quantum computing?" [] f0_34) = Some clarify.
Proof.
  split; [reflexivity|]. split; [reflexivity|].
  pose proof (low_confidence_gate "What about quantum computing?" [] f0_34 eq_refl)
    as [[H _] H'].
  split; [exact H|]. exact (proj1 (H' eq_refl)).
Defined.

(** C1 as stated fails on the demo assembler: a greeting with a low
    score is answered with action [none] and confidence 1.0. *)
Lemma low_confidence_gate_fails_for_greeting :
  ~ (forall q blocks c, lt c f0_55 = true ->
       let r := Demo.assemble_grounded_response q blocks c in
       first_action r = Some clarify /\ citations r = [] /\ confidence r = c).
Proof.
  intros H. specialize (H "hello" [] f0_34 eq_refl).
  destruct H as [H _]. vm_compute in H. discriminate.
Qed.

(** C2, as amended.  With a candidate and no lead trigger in the
    query, the production assembler takes the brief answer (one
    citation, action [clarify]) from 0.55 inclusive to 0.72 exclusive
    and the full answer (the first three candidates cited, action
    [none]) from 0.72 on, and asks for clarification below 0.55; the
    demo assembler takes the same two branches at the same bounds
    when no rule on the query alone applies.  The boundary values
    0.549999, 0.55, 0.719999 and 0.72 fall as claimed. *)
Theorem confidence_thresholds (q : string) (top : ContextBlock)
    (rest : list ContextBlock) (c : float)
    (Hlead : any_in Production.lead_triggers (lower q) = false) :
  let blocks := top :: rest in
  (ge c f0_55 = true -> lt c f0_72 = true ->
   Production.assemble_grounded_response q blocks c =
     mkResponse (Production.brief_answer_text top)
       [Production.citation_of top] c [action clarify])
  /\ (ge c f0_72 = true ->
      Production.assemble_grounded_response q blocks c =
        mkResponse (Production.full_answer_text (lower q) top blocks)
          (map Production.citation_of (take 3 blocks)) c [action none])
  /\ (lt c f0_55 = true ->
      first_action (Production.assemble_grounded_response q blocks c) = Some clarify)
  /\ (canned_response (normalized q) = None ->
      any_in Demo.lead_triggers (normalized q) = false ->
      (ge c f0_55 = true -> lt c f0_72 = true ->
       Demo.assemble_grounded_response q blocks c =
         mkResponse (Demo.brief_answer_text (Cleaner.clean_content (cb_excerpt top)))
           [Demo.citation_of top] c [action clarify])
      /\ (ge c f0_72 = true ->
          Demo.assemble_grounded_response q blocks c =
            mkResponse
              (Demo.full_answer_text (normalized q)
                 (Cleaner.clean_content (cb_excerpt top)) blocks)
              (map Demo.citation_of (take 3 blocks)) c [action none]))
  /\ (lt f0_549999 f0_55 = true
      /\ (ge f0_55 f0_55 = true /\ lt f0_55 f0_72 = true)
      /\ (ge f0_719999 f0_55 = true /\ lt f0_719999 f0_72 = true)
      /\ ge f0_72 f0_72 = true).
Proof.
  intros blocks. repeat split; try reflexivity.
  - intros H1 H2. unfold Production.assemble_grounded_response, blocks.
    rewrite (le_not_lt _ _ H1), Hlead.
    unfold Production.answer_from_context. rewrite (lt_not_ge _ _ H2).
    reflexivity.
  - intros H1. unfold Production.assemble_grounded_response, blocks.
    rewrite (ge_072_not_lt_055 _ H1), Hlead.
    unfold Production.answer_from_context. rewrite H1. reflexivity.
  - intros H1. unfold Production.assemble_grounded_response. now rewrite H1.
  - intros H1 H2. rewrite (demo_canned_none _ _ _ H), H0.
    rewrite (le_not_lt _ _ H1). simpl.
    unfold Demo.answer_from_context. rewrite (lt_not_ge _ _ H2). reflexivity.
  - intros H1. rewrite (demo_canned_none _ _ _ H), H0.
    rewrite (ge_072_not_lt_055 _ H1). simpl.
    unfold Demo.answer_from_context. rewrite H1. reflexivity.
Qed.
End AssemblerFacts.

Section AssemblerClaims.
Import PyStr PyFloat FloatOrder Demo DemoSpec.

Lemma confidence_thresholds_witness :
  any_in Production.lead_triggers (lower "Where is the head office?") = false
  /\ ge f0_65 f0_55 = true /\ lt f0_65 f0_72 = true
  /\ canned_response (normalized "Where is the head office?") = None
  /\ any_in Demo.lead_triggers (normalized "Where is the head office?") = false
  /\ Production.assemble_grounded_response "Where is the head office?"
       [ecommerce_block; integrations_block] f0_65 =
     mkResponse (Production.brief_answer_text ecommerce_block)
       [Production.citation_of ecommerce_block] f0_65 [action clarify]
  /\ Demo.assemble_grounded_response "Where is the head office?"
       [ecommerce_block; integrations_block] f0_65 =
     mkResponse
       (Demo.brief_answer_text (Cleaner.clean_content (cb_excerpt ecommerce_block)))
       [Demo.citation_of ecommerce_block] f0_65 [action clarify].
Proof.
  pose proof (confidence_thresholds "Where is the head office?" ecommerce_block
                [integrations_block] f0_65 eq_refl) as (H1 & _ & _ & H2 & _).
  do 5 (split; [reflexivity|]).
  split; [exact (H1 eq_refl eq_refl)|].
  exact (proj1 (H2 eq_refl eq_refl) eq_refl eq_refl).
Defined.

(** C2 as stated fails on the demo assembler: the query of the format
    test, with a candidate, no lead trigger and a score of 0.65, gets
    the static answer on features, with action [none] and no citation. *)
Lemma confidence_thresholds_fail_for_topic_query :
  ~ (forall q top rest c,
       any_in Demo.lead_triggers (normalized q) = false ->
       ge c f0_55 = true -> lt c f0_72 = true ->
       let r := Demo.assemble_grounded_response q (top :: rest) c in
       first_action r = Some clarify /\ List.length (citations r) = 1).
Proof.
  intros H.
  specialize (H "Tell me about features" ecommerce_block [integrations_block]
                f0_65 eq_refl eq_refl eq_refl).
  destruct H as [H _]. vm_compute in H. discriminate.
Qed.




(** C4, as amended.  For a query that is one of the greetings once
    lower-cased and stripped, the demo assembler returns the same
    response for every candidate list and every score: the greeting
    text, confidence 1.0, action [none] and no citation.  (The
    production assembler has no such rule.) *)
Theorem greeting_bypass (q : string) (blocks : list ContextBlock) (c : float)
    (Hgreet : mem (normalized q) greetings = true) :
  Demo.assemble_grounded_response q blocks c =
    mkResponse greeting_text [] f1_0 [action none].
Proof.
  apply demo_canned_some. unfold canned_response. now rewrite Hgreet.
Qed.

Lemma greeting_bypass_witness :
  mem (normalized "hello") greetings = true
  /\ Demo.assemble_grounded_response "hello" [ecommerce_block] f0_34 =
       mkResponse greeting_text [] f1_0 [action none].
Proof.
  split; [reflexivity|]. apply (greeting_bypass "hello"). reflexivity.
Defined.

(** C4 as stated fails on the production assembler, which treats
    "hello" as any other query. *)
Lemma greeting_bypass_fails_in_production :
  ~ (forall blocks c,
       let r := Production.assemble_grounded_response "hello" blocks c in
       confidence r = f1_0 /\ first_action r = Some none /\ citations r = []).
Proof.
  intros H. specialize (H [] f0_34). destruct H as (_ & H & _).
  vm_compute in H. discriminate.
Qed.



End AssemblerClaims.

(** ** Confidence and relevance *)

Section ConfidenceFacts.
Import PyStr PyFloat FloatOrder PyDict Demo DemoSpec.

Lemma lt_le a b : lt a b = true -> le a b = true.
Proof.
  intros H. apply lt_spec in H. destruct H as (Ha & Hb & H).
  apply le_spec. repeat split; trivial. now apply lexlt_asym.
Qed.

(** [min(1.0, x)] is at most 1.0, also for a NaN. *)
Lemma min_one_le x : le (min f1_0 x) f1_0 = true.
Proof.
  unfold min. destruct (lt x f1_0) eqn:E; [now apply lt_le|reflexivity].
Qed.

(** C7 fails on the code.  A page whose title and content hold the
    word of the query once each is posted twice under it, and the
    relevance the search reports is 2.0. *)
Lemma relevance_score_above_one :
  let st := load_scraped_data
              [mkDoc "https://coredna.com/platform" "Platform" "platform"] in
  map summary (search_content st "platform" 5) =
    [("https://coredna.com/platform", f2_0)]
  /\ le f2_0 f1_0 = false.
Proof. split; vm_compute; reflexivity. Qed.
End ConfidenceFacts.

(** ** Dictionaries *)

Section DictFacts.
Import PyDict.
Context {V : Type}.
Implicit Types (d : dict V) (k : string) (v : V).

Lemma get_set_same k v d : get k (set k v d) = Some v.
Proof.
  induction d as [|[k' v'] d IH]; simpl.
  - now rewrite String.eqb_refl.
  - destruct (String.eqb k k') eqn:E; simpl.
    + now rewrite String.eqb_refl.
    + now rewrite E.
Qed.

Lemma get_set_other k k' v d : k <> k' -> get k' (set k v d) = get k' d.
Proof.
  intros Hne. induction d as [|[k2 v2] d IH]; simpl.
  - destruct (String.eqb k' k) eqn:E; trivial.
    apply String.eqb_eq in E. congruence.
  - destruct (String.eqb k k2) eqn:E; simpl.
    + apply String.eqb_eq in E. subst k2.
      destruct (String.eqb k' k) eqn:E'; trivial.
      apply String.eqb_eq in E'. congruence.
    + now rewrite IH.
Qed.

Lemma mem_keys k d : mem k (keys d) = has k d.
Proof.
  unfold has. induction d as [|[k' v'] d IH]; simpl; trivial.
  destruct (String.eqb k k'); simpl; trivial.
Qed.

(** Assigning to a key keeps the order of the keys; a new key goes to
    the end. *)
Lemma keys_set k v d :
  keys (set k v d) = if mem k (keys d) then keys d else (keys d ++ [k])%list.
Proof.
  induction d as [|[k' v'] d IH]; simpl; trivial.
  destruct (String.eqb k k') eqn:E; simpl.
  - apply String.eqb_eq in E. now subst.
  - unfold keys in *. rewrite IH. now destruct (mem k (map fst d)).
Qed.

Lemma In_get k v d : In (k, v) d -> exists v', get k d = Some v'.
Proof.
  induction d as [|[k' v'] d IH]; simpl; [tauto|].
  intros [H | H].
  - inversion H; subst. rewrite String.eqb_refl. eauto.
  - destruct (String.eqb k k'); eauto.
Qed.

Lemma get_In k v d : get k d = Some v -> In (k, v) d.
Proof.
  induction d as [|[k' v'] d IH]; simpl; [discriminate|].
  destruct (String.eqb k k') eqn:E.
  - apply String.eqb_eq in E. intros H; inversion H; subst. now left.
  - auto.
Qed.

Lemma Forall_set (P : V -> Prop) k v d :
  P v -> Forall (fun x => P (snd x)) d -> Forall (fun x => P (snd x)) (set k v d).
Proof.
  intros Hv. induction d as [|[k' v'] d IH]; simpl; intros H.
  - constructor; auto.
  - inversion H; subst. destruct (String.eqb k k'); constructor; auto.
Qed.
End DictFacts.

(** ** Scores are never NaN *)

Section ScoreFacts.
Import PyFloat FloatOrder.

Lemma iter_pos_invariant {X : Type} (P : X -> Prop) (f : X -> X) :
  (forall x, P x -> P (f x)) -> forall p x, P x -> P (iter_pos f p x).
Proof.
  intros Hf. induction p as [p IH | p IH |]; simpl; intros x Hx; auto.
Qed.

Lemma shr_1_nonneg mrs : (0 <= shr_m mrs)%Z -> (0 <= shr_m (shr_1 mrs))%Z.
Proof.
  destruct mrs as [m r s]. simpl.
  destruct m as [|[p|p|]|[p|p|]]; simpl; lia.
Qed.

Lemma shr_nonneg mrs e n :
  (0 <= shr_m mrs)%Z -> (0 <= shr_m (fst (shr mrs e n)))%Z.
Proof.
  intros H. destruct n; simpl; trivial.
  now apply iter_pos_invariant; [apply shr_1_nonneg|].
Qed.

Lemma shr_fexp_nonneg m e l :
  (0 <= m)%Z -> (0 <= shr_m (fst (shr_fexp prec emax m e l)))%Z.
Proof.
  intros H. unfold shr_fexp. apply shr_nonneg.
  destruct l as [|[]]; simpl; trivial.
Qed.

Lemma round_nearest_even_nonneg m l :
  (0 <= m)%Z -> (0 <= round_nearest_even m l)%Z.
Proof.
  intros H. destruct l as [|[]]; simpl; trivial; try lia.
  destruct (Z.even m); lia.
Qed.

Lemma binary_round_aux_not_nan sx mx ex lx :
  (0 <= mx)%Z -> is_nan (binary_round_aux prec emax sx mx ex lx) = false.
Proof.
  intros H. unfold binary_round_aux.
  pose proof (shr_fexp_nonneg mx ex lx H) as H1.
  destruct (shr_fexp prec emax mx ex lx) as [mrs' e'].
  simpl in H1.
  pose proof (shr_fexp_nonneg _ e' loc_Exact
                (round_nearest_even_nonneg _ (loc_of_shr_record mrs') H1)) as H2.
  destruct (shr_fexp prec emax _ e' loc_Exact) as [mrs'' e''].
  simpl in H2.
  destruct (shr_m mrs''); try lia; trivial.
  now destruct (e'' <=? emax - prec)%Z.
Qed.

Lemma binary_normalize_not_nan m e sz :
  is_nan (binary_normalize prec emax m e sz) = false.
Proof.
  destruct m; simpl; trivial; unfold binary_round;
    destruct (shl_align _ _ _); apply binary_round_aux_not_nan; lia.
Qed.

(** Adding 1.0 to a score that is not NaN gives no NaN. *)
Lemma add_one_ordered a : ordered a -> ordered (add a f1_0).
Proof.
  unfold ordered, add, f1_0. destruct a as [s | s | | s m e]; intros H;
    try discriminate; trivial.
  unfold SFadd. apply binary_normalize_not_nan.
Qed.
End ScoreFacts.

(** ** The ranking of the search *)

Section RankingFacts.
Import PyStr PyFloat FloatOrder PyDict Demo DemoSpec.

Lemma insert_desc_perm x l : Permutation (insert_desc x l) (x :: l).
Proof.
  induction l as [|y l IH]; simpl; auto.
  destruct (lt (snd x) (snd y)); auto.
  rewrite IH. apply perm_swap.
Qed.

Lemma sorted_desc_perm l : Permutation (sorted_desc l) l.
Proof.
  induction l as [|x l IH]; simpl; auto.
  rewrite insert_desc_perm. now constructor.
Qed.

Lemma insert_desc_sorted x l :
  ordered (snd x) -> scored_ok l ->
  StronglySorted desc l -> StronglySorted desc (insert_desc x l).
Proof.
  intros Hx Hl Hs. induction l as [|y l IH]; simpl.
  - repeat constructor.
  - inversion Hl as [|? ? Hy Hl']; subst.
    inversion Hs as [|? ? Hs' Hall]; subst.
    destruct (lt (snd x) (snd y)) eqn:E.
    + constructor; auto.
      apply (Permutation_Forall (Permutation_sym (insert_desc_perm x l))).
      constructor; trivial. unfold desc, not_below. now apply lt_asym.
    + constructor; trivial. constructor; trivial.
      rewrite Forall_forall in Hall, Hl'. apply Forall_forall. intros z Hz.
      unfold desc in *. eapply not_below_trans with (b := snd y); eauto.
Qed.

Lemma sorted_desc_sorted l : scored_ok l -> StronglySorted desc (sorted_desc l).
Proof.
  induction l as [|x l IH]; simpl; intros H; [constructor|].
  inversion H; subst. apply insert_desc_sorted; auto.
  now apply (Permutation_Forall (Permutation_sym (sorted_desc_perm l))).
Qed.

(** Scores that tie with [v] are not passed by an insertion of a
    score that ties with [v]: the sort is stable. *)
Lemma insert_desc_stable v x l :
  ordered v -> ordered (snd x) -> scored_ok l ->
  filter (fun y => tie v (snd y)) (insert_desc x l) =
  filter (fun y => tie v (snd y)) (x :: l).
Proof.
  intros Hv Hx Hl. induction l as [|y l IH]; trivial.
  inversion Hl as [|? ? Hy Hl']; subst. simpl insert_desc.
  destruct (lt (snd x) (snd y)) eqn:E; trivial.
  simpl filter at 1. rewrite (IH Hl'). simpl.
  destruct (tie v (snd x)) eqn:Tx; trivial.
  destruct (tie v (snd y)) eqn:Ty; trivial.
  exfalso. unfold tie in Tx, Ty.
  apply andb_prop in Tx, Ty. destruct Tx as [Tx1 Tx2], Ty as [Ty1 Ty2].
  apply negb_true_iff in Tx1, Tx2, Ty1, Ty2.
  apply lt_false_spec in Tx1, Tx2, Ty1, Ty2; trivial.
  apply lt_spec in E. destruct E as (_ & _ & E).
  destruct (key v) as [[v1 v2] v3], (key (snd x)) as [[x1 x2] x3],
    (key (snd y)) as [[y1 y2] y3]. unfold lexlt in *. lia.
Qed.

Lemma sorted_desc_stable v l :
  ordered v -> scored_ok l ->
  filter (fun y => tie v (snd y)) (sorted_desc l) =
  filter (fun y => tie v (snd y)) l.
Proof.
  intros Hv. induction l as [|x l IH]; trivial. intros Hl.
  inversion Hl; subst. simpl sorted_desc.
  rewrite insert_desc_stable; trivial.
  - simpl. now rewrite IH.
  - now apply (Permutation_Forall (Permutation_sym (sorted_desc_perm l))).
Qed.

Lemma score_posting_inv acc doc : scoring_inv acc -> scoring_inv (score_posting acc doc).
Proof.
  destruct acc as [scores info]. intros [H1 H2]. split; simpl in *.
  - apply (Forall_set ordered); trivial. apply add_one_ordered.
    unfold get_default. destruct (get (p_url doc) scores) eqn:E; [|reflexivity].
    apply get_In in E. unfold scored_ok in H1.
    rewrite Forall_forall in H1. exact (H1 _ E).
  - intros id. unfold has.
    destruct (String.eqb_spec (p_url doc) id) as [Heq|Hne].
    + intros _. exists doc. split; trivial. rewrite <- Heq. apply get_set_same.
    + rewrite !get_set_other by trivial. apply H2.
Qed.

Lemma score_postings_inv ps acc :
  scoring_inv acc -> scoring_inv (fold_left score_posting ps acc).
Proof.
  revert acc. induction ps as [|p ps IH]; simpl; auto using score_posting_inv.
Qed.

(** The two nested loops visit the postings of the query words in
    sequence. *)
Lemma score_words_hits index qw acc :
  fold_left (score_word index) qw acc = fold_left score_posting (hits index qw) acc.
Proof.
  revert acc. induction qw as [|w qw IH]; intros acc; simpl; trivial.
  unfold hits in *. simpl. rewrite fold_left_app, IH.
  unfold score_word, postings_of. now destruct (get w index).
Qed.

Lemma score_documents_inv index qw : scoring_inv (score_documents index qw).
Proof.
  unfold score_documents. rewrite score_words_hits.
  apply score_postings_inv. split; [constructor|].
  intros id H. discriminate.
Qed.

Lemma keys_score_postings ps acc :
  keys (fst (fold_left score_posting ps acc)) =
  fold_left (fun seen u => if mem u seen then seen else (seen ++ [u])%list)
    (map p_url ps) (keys (fst acc)).
Proof.
  revert acc. induction ps as [|p ps IH]; intros [scores info]; trivial.
  simpl fold_left. rewrite IH. simpl. now rewrite keys_set.
Qed.

Lemma In_firstn {X : Type} (k : nat) (l : list X) (x : X) :
  In x (firstn k l) -> In x l.
Proof.
  intros H. rewrite <- (firstn_skipn k l). apply in_or_app. now left.
Qed.

(** [l[:n]] is a prefix of [l], whatever the sign of [n]. *)
Lemma slice_to_int_prefix {X : Type} (n : Z) (l : list X) :
  exists k, slice_to_int n l = firstn k l.
Proof. unfold slice_to_int. destruct (0 <=? n)%Z; eauto. Qed.

Lemma results_of_ranked n info l :
  (forall id s, In (id, s) l ->
                exists doc, get id info = Some doc /\ p_url doc = id) ->
  map summary
    (flat_map
       (fun '(doc_id, score) =>
          match get doc_id info with
          | Some doc =>
              [mkCandidate (p_url doc) (p_title doc) (p_content doc) (p_score doc)
                 (div score (of_nat n))]
          | None => []
          end) l)
  = map (shown n) l.
Proof.
  induction l as [|[id s] l IH]; intros H; trivial.
  simpl. destruct (H id s (or_introl eq_refl)) as (doc & -> & Hd).
  simpl. rewrite IH by (intros id' s' Hin; apply (H id' s'); now right).
  unfold summary, shown. simpl. now rewrite Hd.
Qed.

(** What a search returns, result by result. *)
Lemma search_content_shown (st : Store) (query : string) (max_results : Z) :
  map summary (search_content st query max_results) =
    if is_nil (scraped_data st) || is_nil (words_of (lower query)) then []
    else map (shown (List.length (words_of (lower query))))
           (slice_to_int max_results
              (sorted_docs (indexed_content st) (words_of (lower query)))).
Proof.
  unfold search_content. generalize (words_of (lower query)). intros qw.
  destruct (scraped_data st); trivial. destruct qw as [|w qw]; trivial.
  simpl orb. cbv iota. apply results_of_ranked.
  intros id s Hin.
  destruct (score_documents_inv (indexed_content st) (w :: qw)) as [_ Hinfo].
  apply Hinfo. unfold has.
  destruct (slice_to_int_prefix max_results
              (sorted_docs (indexed_content st) (w :: qw))) as [k Hk].
  rewrite Hk in Hin. apply In_firstn in Hin.
  apply (Permutation_in _ (sorted_desc_perm _)) in Hin.
  apply In_get in Hin. destruct Hin as [v' Hv]. unfold items in Hv. now rewrite Hv.
Qed.

(** C8, as amended.  Without a loaded page or without a word in the
    query a search returns nothing; otherwise its results are the
    slice [sorted_docs[:max_results]] of the ranking (its first
    [max_results] documents; for a negative [max_results], all but the
    last [- max_results]), each with its score divided by the number
    of query words.  The ranking holds the scored documents in
    descending order of score, and documents whose scores tie stand
    in the order in which the scoring loop first met them, going
    through the query words from left to right and through the
    postings of each word in index order. *)
Theorem search_ranking (st : Store) (query : string) (max_results : Z) :
  let query_words := words_of (lower query) in
  let doc_scores := fst (score_documents (indexed_content st) query_words) in
  let ranked := sorted_docs (indexed_content st) query_words in
  map summary (search_content st query max_results) =
    (if is_nil (scraped_data st) || is_nil query_words then []
     else map (shown (List.length query_words)) (slice_to_int max_results ranked))
  /\ Permutation ranked (items doc_scores)
  /\ StronglySorted (fun x y => lt (snd x) (snd y) = false) ranked
  /\ Forall (fun x =>
               filter (fun y => tie (snd x) (snd y)) ranked =
               filter (fun y => tie (snd x) (snd y)) (items doc_scores))
            (items doc_scores)
  /\ keys doc_scores =
     first_seen (map p_url (hits (indexed_content st) query_words)).
Proof.
  cbv zeta. split; [apply search_content_shown|].
  generalize (words_of (lower query)). intros qw.
  destruct (score_documents_inv (indexed_content st) qw) as [Hok Hinfo].
  assert (Hperm : Permutation (sorted_docs (indexed_content st) qw)
                    (items (fst (score_documents (indexed_content st) qw))))
    by apply sorted_desc_perm.
  repeat split.
  - exact Hperm.
  - apply sorted_desc_sorted. exact Hok.
  - apply Forall_forall. intros x Hx. apply sorted_desc_stable; trivial.
    unfold scored_ok in Hok. rewrite Forall_forall in Hok. now apply Hok.
  - unfold score_documents. rewrite score_words_hits.
    now rewrite keys_score_postings.
Qed.

(** C8 as stated fails: two pages that tie come in the order of the
    query words, not in the order in which they were indexed. *)
Lemma ties_not_in_corpus_order :
  let first := mkDoc "https://coredna.com/a" "" "banana" in
  let second := mkDoc "https://coredna.com/b" "" "apple" in
  let st := load_scraped_data [first; second] in
  map doc_url (scraped_data st) = ["https://coredna.com/a"; "https://coredna.com/b"]
  /\ map summary (search_content st "apple banana" 5)
     = [("https://coredna.com/b", f0_5); ("https://coredna.com/a", f0_5)].
Proof. split; vm_compute; reflexivity. Qed.
End RankingFacts.

(** ** The excerpt cleaner *)

Section CleanerFacts.
Import PyStr Cleaner CleanerSpec.

Lemma append_nonempty_r (s t : string) : t <> "" -> s ++ t <> "".
Proof. destruct s; simpl; [trivial|discriminate]. Qed.

Lemma truncated_empty (d : string) : truncated 300 d = "" <-> d = "".
Proof.
  unfold truncated. destruct d; simpl; split; trivial; discriminate.
Qed.

Lemma paragraphs_nonempty c p ps : paragraphs c = p :: ps -> p <> "" /\ c <> "".
Proof.
  intros H. split.
  - assert (Hin : In p (paragraphs c)) by (rewrite H; now left).
    unfold paragraphs in Hin. apply in_map_iff in Hin.
    destruct Hin as (q & <- & Hq). apply filter_In in Hq.
    destruct Hq as [_ Hq]. destruct (strip q); [discriminate|discriminate].
  - intros ->. vm_compute in H. discriminate.
Qed.

(** C9, as amended.  [clean_content] is a total function, and its
    result is empty in two cases only, both without a useful
    sentence: the Description fallback applies and nothing but white
    space follows the label, or it does not apply and the stripping
    passes have left nothing of the input (as for ["Content:"]).  In
    every other case the result is not empty. *)
Theorem clean_content_empty_iff (s : string) :
  let content := strip_passes s in
  clean_content s = "" <->
    useful_sentences content = []
    /\ (description content = Some ""
        \/ (description content = None /\ content = "")).
Proof.
  cbv zeta. unfold clean_content. destruct s as [|a s].
  - simpl is_empty. cbv iota. split; trivial. intros _.
    split; [reflexivity|]. right. split; reflexivity.
  - simpl is_empty. cbv iota. cbv zeta.
    generalize (strip_passes (String a s)). intros c.
    destruct (useful_sentences c) as [|u us] eqn:Eu.
    + destruct (description c) as [d|] eqn:Ed.
      * rewrite truncated_empty. split.
        -- intros ->. auto.
        -- intros [_ [H | [H _]]]; congruence.
      * destruct (paragraphs c) as [|p ps] eqn:Ep.
        -- split.
           ++ intros H. split; trivial. right. split; trivial.
              destruct (200 <? len c)%nat; trivial.
              exfalso. revert H. apply append_nonempty_r. discriminate.
           ++ intros [_ [H | [_ ->]]]; [discriminate|reflexivity].
        -- apply paragraphs_nonempty in Ep. destruct Ep as [Hp Hc]. split.
           ++ intros H. apply -> truncated_empty in H. contradiction.
           ++ intros [_ [H | [_ H]]]; [discriminate|contradiction].
    + split.
      * intros H. exfalso.
        destruct (endswith "." (join ". " (take 3 (u :: us)))) eqn:E.
        -- rewrite H in E. discriminate.
        -- revert H. apply append_nonempty_r. discriminate.
      * intros [H _]. discriminate.
Qed.

(** C9 as stated fails: an excerpt that is nothing but a marker is
    cleaned to the empty string. *)
Lemma clean_content_of_marker_is_empty :
  "Content:" <> "" /\ clean_content "Content:" = "".
Proof. split; [discriminate|reflexivity]. Qed.
End CleanerFacts.

(** ** Stripping and splitting *)

Section StripFacts.
Import PyStr Cleaner CleanerSpec.

Lemma append_assoc_str (a b c : string) : (a ++ b) ++ c = a ++ (b ++ c).
Proof. induction a as [|x a IH]; simpl; [trivial|now rewrite IH]. Qed.

Lemma lstrip_head s :
  lstrip s = "" \/ exists c t, lstrip s = String c t /\ is_space c = false.
Proof.
  induction s as [|c s IH]; simpl; auto.
  destruct (is_space c) eqn:E; eauto.
Qed.

Lemma rstrip_rstrip s : rstrip (rstrip s) = rstrip s.
Proof.
  induction s as [|c s IH]; trivial. simpl.
  destruct (is_space c && is_empty (rstrip s)) eqn:E; trivial.
  simpl. now rewrite IH, E.
Qed.

Lemma rstrip_nonspace c s :
  is_space c = false -> rstrip (String c s) = String c (rstrip s).
Proof. intros H. simpl. now rewrite H. Qed.

(** [strip] leaves a stripped string as it is. *)
Lemma strip_strip s : strip (strip s) = strip s.
Proof.
  unfold strip. destruct (lstrip_head s) as [-> | (c & t & -> & Hc)]; trivial.
  rewrite (rstrip_nonspace _ _ Hc). simpl lstrip. rewrite Hc.
  rewrite (rstrip_nonspace _ _ Hc). now rewrite rstrip_rstrip.
Qed.

Lemma strip_space_strip s : strip (" " ++ strip s) = strip s.
Proof. unfold strip at 1. simpl lstrip. apply strip_strip. Qed.

Lemma free_of_lstrip p s : free_of p s = true -> free_of p (lstrip s) = true.
Proof.
  induction s as [|c s IH]; trivial. simpl. intros H.
  apply andb_prop in H. destruct H as [H1 H2].
  destruct (is_space c); auto. simpl. now rewrite H1, H2.
Qed.

Lemma free_of_rstrip p s : free_of p s = true -> free_of p (rstrip s) = true.
Proof.
  induction s as [|c s IH]; trivial. simpl. intros H.
  apply andb_prop in H. destruct H as [H1 H2].
  destruct (is_space c && is_empty (rstrip s)); trivial.
  simpl. now rewrite H1, IH.
Qed.

Lemma free_of_strip p s : free_of p s = true -> free_of p (strip s) = true.
Proof. intros H. unfold strip. now apply free_of_rstrip, free_of_lstrip. Qed.

Lemma endswith_dot_free u : free_of is_punct u = true -> endswith "." u = false.
Proof.
  induction u as [|c u IH]; trivial. simpl free_of. intros H.
  apply andb_prop in H. destruct H as [H1 H2].
  cbn [endswith]. rewrite (IH H2), orb_false_r.
  cbn [String.eqb]. destruct (Ascii.eqb "." c) eqn:E; trivial.
  apply Ascii.eqb_eq in E. subst c. discriminate.
Qed.

(** A text that ends with a sentence free of [.] does not end with [.]. *)
Lemma endswith_dot_app a u :
  u <> "" -> free_of is_punct u = true -> endswith "." (a ++ u) = false.
Proof.
  intros Hu Hf. induction a as [|c a IH]; simpl append.
  - now apply endswith_dot_free.
  - cbn [endswith]. rewrite IH, orb_false_r. cbn [String.eqb].
    destruct (Ascii.eqb "." c); trivial.
    destruct (a ++ u) eqn:E; trivial.
    destruct a; simpl in E; [contradiction|discriminate].
Qed.

Lemma join_last sep (l : list string) :
  l <> [] -> exists a u, join sep l = a ++ u /\ In u l.
Proof.
  induction l as [|x l IH]; [congruence|]. intros _.
  destruct l as [|y l].
  - exists "", x. split; [reflexivity|now left].
  - destruct IH as (a & u & E & Hin); [discriminate|].
    exists (x ++ sep ++ a), u. split; [|now right].
    change (join sep (x :: y :: l)) with (x ++ sep ++ join sep (y :: l)).
    now rewrite E, !append_assoc_str.
Qed.
End StripFacts.

Section SplitFacts.
Import PyStr Cleaner CleanerSpec.

Local Abbreviation sp s := (Re.split_from re_sentence_end None s 0).

Lemma m_star_punct s prev :
  Re.m [Re.Star true is_punct] prev s [] = Some (skip_class is_punct s, []).
Proof.
  revert prev. induction s as [|c s IH]; intros prev; trivial.
  simpl. destruct (is_punct c) eqn:E; trivial.
  specialize (IH (Some c)). simpl in IH. now rewrite IH.
Qed.

(** A match of [[.!?]+] takes a whole run of punctuation, and does not
    look at what stands before it. *)
Lemma m_sentence_end prev s :
  Re.m re_sentence_end prev s [] =
    match s with
    | String c s' => if is_punct c then Some (skip_class is_punct s', []) else None
    | "" => None
    end.
Proof.
  destruct s as [|c s]; trivial.
  unfold re_sentence_end, Re.plus. simpl.
  destruct (is_punct c); trivial.
  pose proof (m_star_punct s (Some c)) as H. simpl in H. exact H.
Qed.

Lemma len_skip_class p s : len (skip_class p s) <= len s.
Proof.
  induction s as [|c s IH]; simpl; trivial.
  destruct (p c); simpl; unfold len in *; lia.
Qed.

Lemma drop_skip_class p s : drop (len s - len (skip_class p s)) s = skip_class p s.
Proof.
  induction s as [|c s IH]; trivial. simpl skip_class.
  destruct (p c).
  - pose proof (len_skip_class p s) as H. unfold len in *.
    simpl String.length. rewrite Nat.sub_succ_l by trivial. simpl. exact IH.
  - now rewrite Nat.sub_diag.
Qed.

Lemma consumed_skip_class p c s :
  Re.consumed (String c s) (skip_class p s) = S (len s - len (skip_class p s)).
Proof.
  pose proof (len_skip_class p s) as H. unfold Re.consumed, len in *.
  simpl String.length. now rewrite Nat.sub_succ_l.
Qed.

Lemma split_from_prev prev prev' s k :
  Re.split_from re_sentence_end prev s k = Re.split_from re_sentence_end prev' s k.
Proof.
  destruct s as [|c s]; reflexivity.
Qed.

Lemma split_from_drop s : forall k prev,
  k <= len s -> Re.split_from re_sentence_end prev s k = sp (drop k s).
Proof.
  induction s as [|c s IH]; intros k prev Hk.
  - destruct k; [reflexivity|simpl in Hk; lia].
  - destruct k.
    + apply split_from_prev.
    + cbn [Re.split_from drop]. apply IH. simpl in Hk. unfold len in *. lia.
Qed.

Lemma sp_punct c s :
  is_punct c = true ->
  sp (String c s) = ("", let (p, ps) := sp (skip_class is_punct s) in p :: ps).
Proof.
  intros Hc. cbn [Re.split_from]. rewrite m_sentence_end, Hc.
  rewrite consumed_skip_class.
  rewrite split_from_drop, drop_skip_class; trivial.
  unfold len. lia.
Qed.

Lemma sp_other c s :
  is_punct c = false ->
  sp (String c s) = let (p, ps) := sp s in (String c p, ps).
Proof.
  intros Hc. cbn [Re.split_from]. rewrite m_sentence_end, Hc.
  now rewrite (split_from_prev (Some c) None).
Qed.

Lemma sp_app_free u t :
  free_of is_punct u = true ->
  sp (u ++ t) = let (p, ps) := sp t in (u ++ p, ps).
Proof.
  induction u as [|c u IH]; simpl free_of; intros H.
  - simpl. now destruct (sp t).
  - apply andb_prop in H. destruct H as [H1 H2].
    apply negb_true_iff in H1. simpl append.
    rewrite (sp_other _ _ H1), (IH H2). now destruct (sp t).
Qed.

Lemma append_nil_r_str (s : string) : s ++ "" = s.
Proof. induction s as [|c s IH]; simpl; [trivial|now rewrite IH]. Qed.

Lemma free_of_app p a b :
  free_of p a = true -> free_of p b = true -> free_of p (a ++ b) = true.
Proof.
  induction a as [|c a IH]; simpl; trivial. intros H Hb.
  apply andb_prop in H. destruct H as [H1 H2]. now rewrite H1, IH.
Qed.

(** Splitting the sentences joined by [". "] and closed by ["."]
    gives them back, each but the first after a space, and an empty
    last piece. *)
Lemma sp_join (l : list string) : forall pre,
  l <> [] ->
  Forall (fun u => free_of is_punct u = true) l ->
  free_of is_punct pre = true ->
  sp (pre ++ join ". " l ++ ".") =
    (pre ++ hd "" l, (map (append " ") (tl l) ++ [""])%list).
Proof.
  induction l as [|u l IH]; [congruence|]. intros pre _ Hl Hpre.
  inversion Hl as [|? ? Hu Hl']; subst.
  destruct l as [|u' l].
  - simpl join. simpl hd. simpl tl. simpl map.
    rewrite <- append_assoc_str.
    rewrite sp_app_free by now apply free_of_app.
    rewrite (sp_punct "." "" eq_refl). simpl.
    now rewrite append_nil_r_str.
  - change (join ". " (u :: u' :: l)) with (u ++ ". " ++ join ". " (u' :: l)).
    rewrite !append_assoc_str.
    rewrite <- (append_assoc_str pre u).
    rewrite sp_app_free by now apply free_of_app.
    change (". " ++ join ". " (u' :: l) ++ ".")
      with (String "." (" " ++ join ". " (u' :: l) ++ ".")).
    rewrite (sp_punct "." _ eq_refl).
    change (skip_class is_punct (" " ++ join ". " (u' :: l) ++ "."))
      with (" " ++ join ". " (u' :: l) ++ ".").
    rewrite (IH " ") by (trivial; discriminate).
    simpl. now rewrite append_nil_r_str.
Qed.

(** No piece of a split holds a [.], [!] or [?]. *)
Lemma split_from_free s : forall k prev,
  free_of is_punct (fst (Re.split_from re_sentence_end prev s k)) = true
  /\ Forall (fun u => free_of is_punct u = true)
       (snd (Re.split_from re_sentence_end prev s k)).
Proof.
  induction s as [|c s IH]; intros k prev; [simpl; auto|].
  destruct k.
  - cbn [Re.split_from]. rewrite m_sentence_end.
    destruct (is_punct c) eqn:E.
    + rewrite consumed_skip_class.
      destruct (IH (len s - len (skip_class is_punct s)) (Some c)) as [H1 H2].
      destruct (Re.split_from _ _ s _) as [p ps]. simpl in *. auto.
    + destruct (IH 0 (Some c)) as [H1 H2].
      destruct (Re.split_from _ _ s 0) as [p ps]. simpl in *.
      now rewrite E, H1.
  - cbn [Re.split_from]. apply IH.
Qed.

Lemma split_free s :
  Forall (fun u => free_of is_punct u = true) (Re.split re_sentence_end s).
Proof.
  unfold Re.split. destruct (split_from_free s 0 None) as [H1 H2].
  destruct (Re.split_from _ _ s 0). simpl in *. auto.
Qed.
End SplitFacts.

Section IdempotenceFacts.
Import PyStr Cleaner CleanerSpec.

Lemma map_strip_kept (l : list string) : Forall kept l -> map strip l = l.
Proof.
  induction 1 as [|u l (_ & Hu & _) _ IH]; simpl; [trivial|now rewrite Hu, IH].
Qed.

Lemma filter_useful_kept (l : list string) : Forall kept l -> filter useful l = l.
Proof.
  induction 1 as [|u l (_ & _ & Hu) _ IH]; simpl; [trivial|now rewrite Hu, IH].
Qed.

(** The sentences [clean_content] works with are all [kept]. *)
Lemma useful_sentences_kept c : Forall kept (useful_sentences c).
Proof.
  unfold useful_sentences.
  assert (H : Forall kept (filter useful (map strip (Re.split re_sentence_end c)))).
  { apply Forall_forall. intros v Hv. apply filter_In in Hv.
    destruct Hv as [Hin Hu]. apply in_map_iff in Hin.
    destruct Hin as (p & <- & Hp).
    pose proof (split_free c) as Hf. rewrite Forall_forall in Hf.
    repeat split; trivial.
    - apply free_of_strip. now apply Hf.
    - apply strip_strip. }
  now rewrite (map_strip_kept _ H).
Qed.

Lemma kept_nonempty u : kept u -> u <> "".
Proof. intros (_ & _ & H) ->. vm_compute in H. discriminate. Qed.

Lemma joined_not_dotted (l : list string) :
  l <> [] -> Forall kept l -> endswith "." (join ". " l) = false.
Proof.
  intros Hl Hk. destruct (join_last ". " l Hl) as (a & u & -> & Hin).
  rewrite Forall_forall in Hk. destruct (Hk u Hin) as (Hf & _).
  apply endswith_dot_app; trivial. now apply kept_nonempty, Hk.
Qed.

Lemma strip_pieces (l : list string) :
  Forall kept l ->
  map strip (map (append " ") l) = l.
Proof.
  induction 1 as [|u l (_ & Hu & _) _ IH]; trivial.
  cbn [map]. rewrite IH. f_equal.
  rewrite <- Hu at 1. rewrite strip_space_strip. exact Hu.
Qed.

(** The sentences of a text made of kept sentences are those
    sentences. *)
Lemma useful_sentences_joined (l : list string) :
  l <> [] -> Forall kept l ->
  useful_sentences (join ". " l ++ ".") = l.
Proof.
  intros Hl Hk. unfold useful_sentences, Re.split.
  assert (Hf : Forall (fun u => free_of is_punct u = true) l).
  { eapply Forall_impl; [|exact Hk]. now intros u (H & _). }
  pose proof (sp_join l "" Hl Hf eq_refl) as E.
  change ("" ++ join ". " l ++ ".") with (join ". " l ++ ".") in E.
  change ("" ++ hd "" l) with (hd "" l) in E.
  rewrite E. destruct l as [|u l]; [congruence|].
  inversion Hk as [|? ? Hu Hk']; subst. cbn [hd tl map].
  rewrite map_app, (strip_pieces l Hk').
  destruct Hu as (Hu1 & Hu2 & Hu3). rewrite Hu2.
  change (map strip [""]) with [""].
  cbn [filter]. rewrite Hu3, filter_app, (filter_useful_kept l Hk').
  change (filter useful [""]) with (@nil string).
  rewrite app_nil_r. apply (map_strip_kept (u :: l)). now constructor.
Qed.

(** A text made of at most three kept sentences, which the stripping
    passes leave as it is, is a fixed point of [clean_content]. *)
Lemma clean_content_joined (l : list string) :
  l <> [] -> Forall kept l -> List.length l <= 3 ->
  strip_passes (join ". " l ++ ".") = join ". " l ++ "." ->
  clean_content (join ". " l ++ ".") = join ". " l ++ ".".
Proof.
  intros Hl Hk Hlen Hs. unfold clean_content.
  destruct (join ". " l ++ ".") eqn:E.
  { exfalso. revert E. apply append_nonempty_r. discriminate. }
  simpl is_empty. cbv iota. rewrite <- E in *. rewrite Hs. cbv zeta.
  rewrite (useful_sentences_joined l Hl Hk).
  destruct l as [|u l']; [congruence|].
  unfold take. rewrite firstn_all2 by trivial.
  now rewrite (joined_not_dotted (u :: l') Hl Hk).
Qed.

(** C10, as amended.  When the result of [clean_content] is made of
    useful sentences and the stripping passes leave that result as it
    is, cleaning it again gives it back. *)
Theorem clean_content_idempotent_on_sentences (s : string)
    (Huseful : useful_sentences (strip_passes s) <> [])
    (Hstable : strip_passes (clean_content s) = clean_content s) :
  clean_content (clean_content s) = clean_content s.
Proof.
  assert (E : clean_content s =
              join ". " (take 3 (useful_sentences (strip_passes s))) ++ ".").
  { unfold clean_content. destruct s as [|a s].
    - exfalso. apply Huseful. reflexivity.
    - simpl is_empty. cbv iota. cbv zeta.
      pose proof (useful_sentences_kept (strip_passes (String a s))) as Hk.
      destruct (useful_sentences (strip_passes (String a s))) as [|u us] eqn:Eu;
        [congruence|].
      rewrite joined_not_dotted; trivial.
      + discriminate.
      + unfold take. rewrite <- (firstn_skipn 3 (u :: us)) in Hk.
        now apply Forall_app in Hk. }
  pose proof (useful_sentences_kept (strip_passes s)) as Hk.
  rewrite E in *.
  apply clean_content_joined; trivial.
  - destruct (useful_sentences (strip_passes s)); [congruence|discriminate].
  - unfold take. rewrite <- (firstn_skipn 3 (useful_sentences _)) in Hk.
    now apply Forall_app in Hk.
  - unfold take. apply firstn_le_length.
Qed.

Lemma clean_content_idempotent_witness :
  useful_sentences (strip_passes (cb_excerpt ecommerce_block)) <> []
  /\ strip_passes (clean_content (cb_excerpt ecommerce_block))
     = clean_content (cb_excerpt ecommerce_block)
  /\ clean_content (clean_content (cb_excerpt ecommerce_block))
     = clean_content (cb_excerpt ecommerce_block).
Proof.
  assert (H1 : useful_sentences (strip_passes (cb_excerpt ecommerce_block)) <> [])
    by (vm_compute; discriminate).
  assert (H2 : strip_passes (clean_content (cb_excerpt ecommerce_block))
               = clean_content (cb_excerpt ecommerce_block))
    by (vm_compute; reflexivity).
  split; [exact H1|]. split; [exact H2|].
  exact (clean_content_idempotent_on_sentences _ H1 H2).
Defined.

(** C10 as stated fails: the passes strip one list marker per line,
    so a second cleaning strips the marker the first one left. *)
Lemma clean_content_not_idempotent :
  ~ (forall s, clean_content (clean_content s) = clean_content s).
Proof.
  intros H. specialize (H "- - Inventory tracking").
  vm_compute in H. discriminate.
Qed.
End IdempotenceFacts.

(** ** What every response of the assemblers satisfies *)

Section AssemblerInvariants.
Import PyStr PyFloat FloatOrder Demo DemoSpec.

Lemma len_slice_to n s : len (slice_to n s) <= n.
Proof.
  revert s. induction n as [|n IH]; intros [|c s]; simpl; try lia.
  specialize (IH s). unfold len in *. lia.
Qed.

Lemma len_append a b : len (a ++ b) = len a + len b.
Proof. unfold len. induction a as [|c a IH]; simpl; [trivial|now rewrite IH]. Qed.

Lemma In_take {X : Type} (k : nat) (l : list X) (x : X) : In x (take k l) -> In x l.
Proof. apply In_firstn. Qed.

Lemma take_1_take_3 {X : Type} (l : list X) (x : X) :
  In x (take 1 l) -> In x (take 3 l).
Proof. destruct l as [|a l]; simpl; [tauto|]. intros [H | []]. now left. Qed.

Lemma production_citations_sound_aux (q : string) (blocks : list ContextBlock)
    (c : float) :
  Forall (fun cit => exists b, In b (take 3 blocks)
                               /\ cit_url cit = cb_url b /\ cit_title cit = cb_title b)
         (citations (Production.assemble_grounded_response q blocks c)).
Proof.
  assert (Hcit : forall l, incl l (take 3 blocks) ->
            Forall (fun cit => exists b, In b (take 3 blocks)
                     /\ cit_url cit = cb_url b /\ cit_title cit = cb_title b)
                   (map Production.citation_of l)).
  { intros l Hl. apply Forall_forall. intros cit Hin.
    apply in_map_iff in Hin. destruct Hin as (b & <- & Hb).
    exists b. auto. }
  assert (Hrest : forall top rest, blocks = top :: rest ->
            Forall (fun cit => exists b, In b (take 3 blocks)
                     /\ cit_url cit = cb_url b /\ cit_title cit = cb_title b)
              (citations (Production.answer_from_context (lower q) top blocks c))).
  { intros top rest E. unfold Production.answer_from_context.
    destruct (ge c f0_72); cbn [citations].
    - apply Hcit. apply incl_refl.
    - rewrite E. simpl.
      constructor; [|constructor]. exists top. simpl. auto. }
  unfold Production.assemble_grounded_response.
  destruct (lt c f0_55); [constructor|].
  destruct blocks as [|top rest] eqn:E; [constructor|].
  destruct (any_in Production.lead_triggers (lower q)); [|now apply (Hrest top rest)].
  destruct (ge c f0_72) eqn:G; [|now apply (Hrest top rest)].
  simpl. constructor; [|constructor]. exists top. simpl. auto.
Qed.

(** The production assembler cites only the candidates it was given:
    each citation has the title and the url of one of the first three
    blocks. *)
Theorem production_citations_sound (q : string) (blocks : list ContextBlock)
    (c : float) :
  Forall (fun cit => exists b, In b (take 3 blocks)
                               /\ cit_url cit = cb_url b /\ cit_title cit = cb_title b)
         (citations (Production.assemble_grounded_response q blocks c)).
Proof. eauto using production_citations_sound_aux. Qed.

Lemma demo_citations_sound_aux (q : string) (blocks : list ContextBlock) (c : float) :
  Forall (fun cit => exists b, In b (take 3 blocks) /\ cit_url cit = cb_url b)
         (citations (Demo.assemble_grounded_response q blocks c)).
Proof.
  destruct (canned_response (normalized q)) as [r|] eqn:Eq.
  - rewrite (demo_canned_some _ _ _ _ Eq).
    unfold canned_response in Eq.
    repeat match type of Eq with
           | (if ?b then _ else _) = _ => destruct b
           end; inversion Eq; constructor.
  - rewrite (demo_canned_none _ _ _ Eq).
    destruct (lt c f0_55 && is_nil blocks); [constructor|].
    destruct blocks as [|top rest] eqn:E; [constructor|].
    assert (Hrest : Forall (fun cit => exists b, In b (take 3 (top :: rest))
                                       /\ cit_url cit = cb_url b)
              (citations (Demo.answer_from_context (normalized q) top (top :: rest) c))).
    { unfold Demo.answer_from_context. destruct (ge c f0_72); cbn [citations].
      - apply Forall_forall. intros cit Hin. apply in_map_iff in Hin.
        destruct Hin as (b & <- & Hb). exists b. auto.
      - constructor; [|constructor]. exists top. simpl. auto. }
    destruct (any_in Demo.lead_triggers (normalized q)); trivial.
    destruct (ge c f0_72); trivial.
    simpl. constructor; [|constructor]. exists top. simpl. auto.
Qed.

(** The demo assembler cites only the candidates it was given: each
    citation has the url of one of the first three blocks. *)
Theorem demo_citations_sound (q : string) (blocks : list ContextBlock) (c : float) :
  Forall (fun cit => exists b, In b (take 3 blocks) /\ cit_url cit = cb_url b)
         (citations (Demo.assemble_grounded_response q blocks c)).
Proof. eauto using demo_citations_sound_aux. Qed.

(** Both assemblers return exactly one action, which is [none],
    [clarify], or [collect_lead] with the four lead fields. *)
Theorem one_action (q : string) (blocks : list ContextBlock) (c : float) :
  let ok (r : Response) :=
    actions r = [action none] \/ actions r = [action clarify]
    \/ actions r = [mkAction collect_lead (Some ["name"; "email"; "company"; "use_case"])] in
  ok (Production.assemble_grounded_response q blocks c)
  /\ ok (Demo.assemble_grounded_response q blocks c).
Proof.
  cbv zeta. split.
  - unfold Production.assemble_grounded_response, Production.answer_from_context.
    destruct (lt c f0_55); [simpl; auto|].
    destruct blocks; [simpl; auto|].
    destruct (any_in Production.lead_triggers (lower q)); destruct (ge c f0_72); simpl; auto.
  - destruct (canned_response (normalized q)) as [r|] eqn:Eq.
    + rewrite (demo_canned_some _ _ _ _ Eq). unfold canned_response in Eq.
      repeat match type of Eq with
             | (if ?b then _ else _) = _ => destruct b
             end; inversion Eq; simpl; auto.
    + rewrite (demo_canned_none _ _ _ Eq). unfold Demo.answer_from_context.
      destruct (lt c f0_55 && is_nil blocks); [simpl; auto|].
      destruct blocks; [simpl; auto|].
      destruct (any_in Demo.lead_triggers (normalized q)); destruct (ge c f0_72); simpl; auto.
Qed.

Lemma response_confidence_aux (q : string) (blocks : list ContextBlock) (c : float) :
  confidence (Production.assemble_grounded_response q blocks c) = c
  /\ (let c' := confidence (Demo.assemble_grounded_response q blocks c) in
      c' = f1_0 \/ c' = f0_9 \/ c' = f0_7 \/ c' = c).
Proof.
  split.
  - unfold Production.assemble_grounded_response, Production.answer_from_context.
    destruct (lt c f0_55); trivial. destruct blocks; trivial.
    destruct (any_in Production.lead_triggers (lower q)); destruct (ge c f0_72);
      trivial.
  - cbv zeta. destruct (canned_response (normalized q)) as [r|] eqn:Eq.
    + rewrite (demo_canned_some _ _ _ _ Eq). unfold canned_response in Eq.
      repeat match type of Eq with
             | (if ?b then _ else _) = _ => destruct b
             end; inversion Eq; simpl; auto.
    + rewrite (demo_canned_none _ _ _ Eq). unfold Demo.answer_from_context.
      destruct (lt c f0_55 && is_nil blocks); [simpl; auto|].
      destruct blocks; [simpl; auto|].
      destruct (any_in Demo.lead_triggers (normalized q)); destruct (ge c f0_72); simpl; auto.
Qed.


(** A confidence between 0 and 1 gives a response whose confidence is
    between 0 and 1, as the format test of the repository checks. *)
Theorem response_confidence_in_range (q : string) (blocks : list ContextBlock)
    (c : float) (Hlo : le zero c = true) (Hhi : le c f1_0 = true) :
  let valid (r : Response) :=
    le zero (confidence r) = true /\ le (confidence r) f1_0 = true in
  valid (Production.assemble_grounded_response q blocks c)
  /\ valid (Demo.assemble_grounded_response q blocks c).
Proof.
  cbv zeta. destruct (response_confidence_aux q blocks c) as [-> H]. split; [auto|].
  cbv zeta in H. destruct H as [-> | [-> | [-> | ->]]]; auto.
Qed.

Lemma response_confidence_in_range_witness :
  le zero f0_65 = true /\ le f0_65 f1_0 = true
  /\ le (confidence (Demo.assemble_grounded_response "Tell me about features"
                       [ecommerce_block; integrations_block] f0_65)) f1_0 = true.
Proof.
  split; [reflexivity|]. split; [reflexivity|].
  exact (proj2 (proj2 (response_confidence_in_range "Tell me about features"
                         [ecommerce_block; integrations_block] f0_65
                         eq_refl eq_refl))).
Defined.

(** Unless the confidence is at least 0.72, the answer of the
    production assembler does not depend on the query. *)
Theorem production_query_ignored_below_072 (q q' : string)
    (blocks : list ContextBlock) (c : float) (Hc : ge c f0_72 = false) :
  Production.assemble_grounded_response q blocks c =
  Production.assemble_grounded_response q' blocks c.
Proof.
  unfold Production.assemble_grounded_response, Production.answer_from_context.
  rewrite Hc. destruct (lt c f0_55); trivial. destruct blocks; trivial.
  now destruct (any_in _ (lower q)), (any_in _ (lower q')).
Qed.

Lemma production_query_ignored_below_072_witness :
  ge f0_65 f0_72 = false
  /\ Production.assemble_grounded_response "I need a demo and pricing information"
       [ecommerce_block] f0_65 =
     Production.assemble_grounded_response "What is Core DNA?" [ecommerce_block] f0_65.
Proof.
  split; [reflexivity|].
  apply production_query_ignored_below_072. reflexivity.
Defined.

(** Citations are bounded: at most three of them, with quotes of at
    most 153 characters from the production assembler and of at most
    103 characters from the demo assembler. *)
Theorem citations_bounded (q : string) (blocks : list ContextBlock) (c : float) :
  let bounded (n : nat) (r : Response) :=
    List.length (citations r) <= 3
    /\ Forall (fun cit => len (cit_quote cit) <= n) (citations r) in
  bounded 153 (Production.assemble_grounded_response q blocks c)
  /\ bounded 103 (Demo.assemble_grounded_response q blocks c).
Proof.
  cbv zeta.
  assert (Hp : forall b, len (cit_quote (Production.citation_of b)) <= 153).
  { intros b. unfold Production.citation_of. cbn [cit_quote].
    destruct (150 <? len (cb_excerpt b))%nat eqn:E.
    - rewrite len_append. pose proof (len_slice_to 150 (cb_excerpt b)).
      change (len "...") with 3. lia.
    - apply Nat.ltb_ge in E. lia. }
  assert (Hd : forall b, len (cit_quote (Demo.citation_of b)) <= 103).
  { intros b. unfold Demo.citation_of. cbn [cit_quote].
    destruct (100 <? len (Cleaner.clean_content (cb_excerpt b)))%nat eqn:E.
    - rewrite len_append.
      pose proof (len_slice_to 100 (Cleaner.clean_content (cb_excerpt b))).
      change (len "...") with 3. lia.
    - apply Nat.ltb_ge in E. lia. }
  assert (Hl : forall s, len (slice_to 100 s ++ "...") <= 103).
  { intros s. rewrite len_append. pose proof (len_slice_to 100 s).
    change (len "...") with 3. lia. }
  assert (Hmap : forall (f : ContextBlock -> Citation) n l,
             (forall b, len (cit_quote (f b)) <= n) ->
             List.length (map f (take 3 l)) <= 3
             /\ Forall (fun cit => len (cit_quote cit) <= n) (map f (take 3 l))).
  { intros f n l Hf. split.
    - rewrite length_map. apply firstn_le_length.
    - apply Forall_forall. intros cit Hin. apply in_map_iff in Hin.
      destruct Hin as (b & <- & _). apply Hf. }
  assert (Hone : forall (f : ContextBlock -> Citation) n l,
             (forall b, len (cit_quote (f b)) <= n) ->
             List.length (take 1 (map f (take 3 l))) <= 3
             /\ Forall (fun cit => len (cit_quote cit) <= n)
                  (take 1 (map f (take 3 l)))).
  { intros f n l Hf. destruct (Hmap f n l Hf) as [H1 H2]. split.
    - pose proof (firstn_le_length 1 (map f (take 3 l))). unfold take in *. lia.
    - apply Forall_forall. intros cit Hin. apply In_take in Hin.
      rewrite Forall_forall in H2. auto. }
  split.
  - unfold Production.assemble_grounded_response, Production.answer_from_context.
    destruct (lt c f0_55); [simpl; auto|].
    destruct blocks as [|top rest]; [simpl; auto|].
    destruct (any_in Production.lead_triggers (lower q)); destruct (ge c f0_72); cbn [citations]; auto.
    split; [simpl; lia|]. constructor; [|constructor].
    unfold Production.lead_citation. cbn [cit_quote]. pose proof (Hl (cb_excerpt top)). lia.
  - destruct (canned_response (normalized q)) as [r|] eqn:Eq.
    + rewrite (demo_canned_some _ _ _ _ Eq). unfold canned_response in Eq.
      repeat match type of Eq with
             | (if ?b then _ else _) = _ => destruct b
             end; inversion Eq; simpl; auto.
    + rewrite (demo_canned_none _ _ _ Eq). unfold Demo.answer_from_context.
      destruct (lt c f0_55 && is_nil blocks); [simpl; auto|].
      destruct blocks as [|top rest]; [simpl; auto|].
      destruct (any_in Demo.lead_triggers (normalized q)); destruct (ge c f0_72); cbn [citations]; auto.
      split; [simpl; lia|]. constructor; [|constructor].
      unfold Demo.lead_citation. cbn [cit_quote]. apply Hl.
Qed.
End AssemblerInvariants.

(** ** The index and the results of a search *)

Section IndexFacts.
Import PyStr PyFloat FloatOrder PyDict Demo DemoSpec IndexSpec.

Lemma Forall_set_pair {V : Type} (Q : string * V -> Prop) k v (d : dict V) :
  Q (k, v) -> Forall Q d -> Forall Q (set k v d).
Proof.
  intros Hv. induction d as [|[k' v'] d IH]; simpl; intros H.
  - constructor; auto.
  - inversion H; subst. destruct (String.eqb k k'); constructor; auto.
Qed.

Lemma mem_In (k : string) (l : list string) : mem k l = true <-> In k l.
Proof.
  unfold mem. rewrite existsb_exists. split.
  - intros (x & Hx & E). apply String.eqb_eq in E. now subst.
  - intros H. exists k. split; trivial. apply String.eqb_refl.
Qed.

Lemma NoDup_keys_set {V : Type} k v (d : dict V) :
  NoDup (keys d) -> NoDup (keys (set k v d)).
Proof.
  intros H. rewrite keys_set. destruct (mem k (keys d)) eqn:E; trivial.
  apply NoDup_app; trivial.
  - repeat constructor. intros [].
  - intros x Hx [<- | []]. apply mem_In in Hx. congruence.
Qed.

Lemma append_posting_sound docs index w doc :
  Forall (entry_sound docs) index ->
  3 < len w -> In doc docs -> In w (doc_words doc) ->
  Forall (entry_sound docs) (append_posting w (posting_of doc) index).
Proof.
  intros Hidx Hw Hdoc Hin. unfold append_posting.
  apply Forall_set_pair; trivial. split; trivial. simpl.
  apply Forall_app. split.
  - unfold get_default. destruct (get w index) as [ps|] eqn:E; [|constructor].
    apply get_In in E. rewrite Forall_forall in Hidx. exact (proj2 (Hidx _ E)).
  - constructor; [|constructor]. eauto.
Qed.

Lemma index_words_sound docs doc ws : forall index,
  In doc docs -> incl ws (doc_words doc) ->
  Forall (entry_sound docs) index ->
  Forall (entry_sound docs)
    (fold_left
       (fun index word =>
          if (3 <? len word)%nat
          then append_posting word (posting_of doc) index
          else index) ws index).
Proof.
  induction ws as [|w ws IH]; intros index Hdoc Hws Hidx; trivial.
  simpl. apply IH; trivial.
  - intros x Hx. apply Hws. now right.
  - destruct (3 <? len w)%nat eqn:E; trivial.
    apply append_posting_sound; trivial.
    + now apply Nat.ltb_lt.
    + apply Hws. now left.
Qed.

Lemma index_docs_sound docs ds : forall index,
  incl ds docs -> Forall (entry_sound docs) index ->
  Forall (entry_sound docs) (fold_left index_doc ds index).
Proof.
  induction ds as [|d ds IH]; intros index Hds Hidx; trivial.
  simpl. apply IH.
  - intros x Hx. apply Hds. now right.
  - apply (index_words_sound docs d (doc_words d)); trivial.
    + apply Hds. now left.
    + apply incl_refl.
Qed.

Lemma index_sound_aux (docs : list Doc) :
  Forall (entry_sound docs) (items (indexed_content (load_scraped_data docs))).
Proof.
  unfold load_scraped_data, create_keyword_index, items. simpl.
  apply index_docs_sound; [apply incl_refl|constructor].
Qed.

(** The index built from a corpus holds nothing else: every key has
    more than three characters, and every posting under a key is the
    posting (url, title, first 500 characters of the content, score
    1.0) of a document of the corpus in which the key occurs. *)
Theorem index_sound (docs : list Doc) :
  Forall (entry_sound docs) (items (indexed_content (load_scraped_data docs))).
Proof. eauto using index_sound_aux. Qed.

Lemma posted_append index w p w' p' :
  posted index w p -> posted (append_posting w' p' index) w p.
Proof.
  intros (ps & E & Hin). unfold posted, append_posting.
  destruct (String.eqb_spec w' w) as [->|Hne].
  - rewrite get_set_same. unfold get_default. rewrite E.
    eexists. split; [reflexivity|]. apply in_or_app. now left.
  - rewrite get_set_other by trivial. eauto.
Qed.

Lemma posted_new index w p : posted (append_posting w p index) w p.
Proof.
  unfold posted, append_posting. rewrite get_set_same.
  eexists. split; [reflexivity|]. apply in_or_app. right. now left.
Qed.

Lemma index_words_keep p0 ws : forall index w p,
  posted index w p ->
  posted (fold_left
            (fun index word =>
               if (3 <? len word)%nat then append_posting word p0 index else index)
            ws index) w p.
Proof.
  induction ws as [|x ws IH]; intros index w p H; trivial.
  simpl. apply IH. destruct (3 <? len x)%nat; trivial. now apply posted_append.
Qed.

Lemma index_words_post p0 ws : forall index w,
  In w ws -> 3 < len w ->
  posted (fold_left
            (fun index word =>
               if (3 <? len word)%nat then append_posting word p0 index else index)
            ws index) w p0.
Proof.
  induction ws as [|x ws IH]; intros index w Hin Hw; [destruct Hin|].
  simpl. destruct Hin as [-> | Hin].
  - apply index_words_keep. apply Nat.ltb_lt in Hw. rewrite Hw.
    apply posted_new.
  - now apply IH.
Qed.

Lemma index_docs_keep ds : forall index w p,
  posted index w p -> posted (fold_left index_doc ds index) w p.
Proof.
  induction ds as [|d ds IH]; intros index w p H; trivial.
  simpl. apply IH. now apply (index_words_keep (posting_of d)).
Qed.

Lemma index_complete_aux (docs : list Doc) (doc : Doc) (w : string)
    (Hdoc : In doc docs) (Hw : In w (doc_words doc)) (Hlen : 3 < len w) :
  posted (indexed_content (load_scraped_data docs)) w (posting_of doc).
Proof.
  unfold load_scraped_data, create_keyword_index. simpl.
  generalize (@empty (list Posting)).
  induction docs as [|d docs IH]; intros index; [destruct Hdoc|].
  simpl. destruct Hdoc as [-> | Hdoc].
  - apply index_docs_keep.
    now apply (index_words_post (posting_of doc) (doc_words doc)).
  - now apply IH.
Qed.

(** Indexing and then looking up: every word of more than three
    characters of a document of the corpus is a key of the index, with
    the posting of the document under it. *)
Theorem index_complete (docs : list Doc) (doc : Doc) (w : string)
    (Hdoc : In doc docs) (Hw : In w (doc_words doc)) (Hlen : 3 < len w) :
  posted (indexed_content (load_scraped_data docs)) w (posting_of doc).
Proof. eauto using index_complete_aux. Qed.

Lemma index_complete_witness :
  let doc := mkDoc "https://coredna.com/pricing" "Pricing" "Flexible plans" in
  In doc [doc] /\ In "pricing" (doc_words doc) /\ 3 < len "pricing"
  /\ posted (indexed_content (load_scraped_data [doc])) "pricing" (posting_of doc).
Proof.
  cbv zeta.
  assert (H1 : In (mkDoc "https://coredna.com/pricing" "Pricing" "Flexible plans")
                 [mkDoc "https://coredna.com/pricing" "Pricing" "Flexible plans"])
    by (left; reflexivity).
  assert (H2 : In "pricing"
                 (doc_words (mkDoc "https://coredna.com/pricing" "Pricing"
                               "Flexible plans")))
    by (vm_compute; left; reflexivity).
  assert (H3 : 3 < len "pricing") by (vm_compute; lia).
  split; [exact H1|]. split; [exact H2|]. split; [exact H3|].
  exact (index_complete _ _ _ H1 H2 H3).
Defined.
End IndexFacts.

Section SearchFacts.
Import PyStr PyFloat FloatOrder PyDict Demo DemoSpec IndexSpec.

Lemma map_fst_shown n (l : list (string * float)) : map fst (map (shown n) l) = map fst l.
Proof. rewrite map_map. apply map_ext. now intros [id s]. Qed.

Lemma urls_of_results (st : Store) (query : string) (max_results : Z) :
  map c_url (search_content st query max_results) =
  map fst (map summary (search_content st query max_results)).
Proof. rewrite map_map. apply map_ext. reflexivity. Qed.

Lemma NoDup_firstn {X : Type} (k : nat) (l : list X) : NoDup l -> NoDup (firstn k l).
Proof.
  intros H. rewrite <- (firstn_skipn k l) in H. now apply NoDup_app_remove_r in H.
Qed.

Lemma NoDup_keys_scores ps : forall acc,
  NoDup (keys (fst acc)) -> NoDup (keys (fst (fold_left score_posting ps acc))).
Proof.
  induction ps as [|p ps IH]; intros [scores info] H; trivial.
  simpl fold_left. apply IH. simpl. now apply NoDup_keys_set.
Qed.

Lemma NoDup_ranked index qw : NoDup (map fst (sorted_docs index qw)).
Proof.
  unfold sorted_docs.
  apply (Permutation_NoDup
           (Permutation_map fst (Permutation_sym (sorted_desc_perm _)))).
  unfold score_documents. rewrite score_words_hits.
  apply (NoDup_keys_scores (hits index qw) (empty, empty)). constructor.
Qed.

(** No document comes twice in the results of a search. *)
Theorem search_results_distinct (st : Store) (query : string) (max_results : Z) :
  NoDup (map c_url (search_content st query max_results)).
Proof.
  rewrite urls_of_results, search_content_shown.
  destruct (is_nil (scraped_data st) || is_nil (words_of (lower query)));
    [constructor|].
  rewrite map_fst_shown.
  destruct (slice_to_int_prefix max_results
              (sorted_docs (indexed_content st) (words_of (lower query)))) as [k ->].
  rewrite <- firstn_map. apply NoDup_firstn, NoDup_ranked.
Qed.

Lemma search_result_count_aux (st : Store) (query : string) (max_results : Z) :
  List.length (search_content st query max_results) =
    if is_nil (scraped_data st) || is_nil (words_of (lower query)) then 0
    else if (0 <=? max_results)%Z
         then Nat.min (Z.to_nat max_results) (scored st query)
         else scored st query - Z.to_nat (- max_results).
Proof.
  rewrite <- (length_map summary), search_content_shown.
  destruct (is_nil (scraped_data st) || is_nil (words_of (lower query)));
    [reflexivity|].
  rewrite length_map. unfold slice_to_int.
  assert (E : List.length (sorted_docs (indexed_content st) (words_of (lower query)))
              = scored st query).
  { unfold scored, keys, sorted_docs. rewrite length_map.
    apply Permutation_length, sorted_desc_perm. }
  destruct (0 <=? max_results)%Z; rewrite length_firstn, E; lia.
Qed.

(** The number of results of a search, for a limit of either sign,
    which the code does not check.  Without a loaded page or a word in
    the query there is none; a limit [max_results >= 0] gives
    [max_results] results or, when fewer documents were scored, all of
    them; a negative limit gives all scored documents but the last
    [- max_results], which can be more than the limit. *)
Theorem search_result_count (st : Store) (query : string) (max_results : Z) :
  List.length (search_content st query max_results) =
    if is_nil (scraped_data st) || is_nil (words_of (lower query)) then 0
    else if (0 <=? max_results)%Z
         then Nat.min (Z.to_nat max_results) (scored st query)
         else scored st query - Z.to_nat (- max_results).
Proof. eauto using search_result_count_aux. Qed.

Lemma doc_info_from ps (P : Posting -> Prop) : forall acc,
  Forall P ps -> Forall (fun kv => P (snd kv)) (snd acc) ->
  Forall (fun kv => P (snd kv)) (snd (fold_left score_posting ps acc)).
Proof.
  induction ps as [|p ps IH]; intros [scores info] Hps Hacc; trivial.
  inversion Hps; subst. simpl fold_left. apply IH; trivial.
  simpl. now apply (Forall_set P).
Qed.

Lemma hits_from_corpus docs qw :
  Forall (fun p => exists doc, In doc docs /\ p = posting_of doc)
         (hits (indexed_content (load_scraped_data docs)) qw).
Proof.
  apply Forall_forall. intros p Hin. unfold hits in Hin.
  apply in_flat_map in Hin. destruct Hin as (w & _ & Hp).
  unfold postings_of in Hp.
  destruct (get w (indexed_content (load_scraped_data docs))) as [ps|] eqn:E;
    [|destruct Hp].
  apply get_In in E. pose proof (index_sound_aux docs) as Hs.
  unfold items in Hs. rewrite Forall_forall in Hs. destruct (Hs _ E) as [_ Hps].
  rewrite Forall_forall in Hps. destruct (Hps _ Hp) as (doc & Hd & _ & ->). eauto.
Qed.

Lemma search_results_from_corpus_aux (docs : list Doc) (query : string)
    (max_results : Z) :
  Forall (fun c => exists doc, In doc docs /\ shows c doc)
         (search_content (load_scraped_data docs) query max_results).
Proof.
  apply Forall_forall. intros c Hc. unfold search_content in Hc.
  destruct (scraped_data (load_scraped_data docs)); [destruct Hc|].
  destruct (words_of (lower query)) as [|w qw]; [destruct Hc|].
  apply in_flat_map in Hc. destruct Hc as ([id s] & _ & Hc).
  destruct (get id _) as [p|] eqn:E; [|destruct Hc].
  destruct Hc as [<- | []].
  apply get_In in E. unfold score_documents in E. rewrite score_words_hits in E.
  pose proof (doc_info_from _ _ (empty, empty) (hits_from_corpus docs (w :: qw))
                (Forall_nil _)) as H.
  rewrite Forall_forall in H. destruct (H _ E) as (doc & Hd & Hp).
  simpl in Hp. exists doc. split; trivial. subst p. repeat split.
Qed.

(** Every result of a search over a corpus shows a document of the
    corpus: its url, its title and the first 500 characters of its
    content. *)
Theorem search_results_from_corpus (docs : list Doc) (query : string)
    (max_results : Z) :
  Forall (fun c => exists doc, In doc docs /\ shows c doc)
         (search_content (load_scraped_data docs) query max_results).
Proof. eauto using search_results_from_corpus_aux. Qed.

Lemma no_short_key docs w :
  len w <= 3 -> get w (indexed_content (load_scraped_data docs)) = None.
Proof.
  intros Hw. destruct (get w _) as [ps|] eqn:E; trivial.
  apply get_In in E. pose proof (index_sound_aux docs) as Hs.
  unfold items in Hs. rewrite Forall_forall in Hs.
  destruct (Hs _ E) as [Hlen _]. simpl in Hlen. lia.
Qed.

Lemma hits_short docs (ws : list string) :
  (forall w, In w ws -> len w <= 3) ->
  hits (indexed_content (load_scraped_data docs)) ws = [].
Proof.
  unfold hits. induction ws as [|x ws IH]; intros Hl; trivial. cbn [flat_map].
  unfold postings_of at 1. rewrite no_short_key.
  - apply IH. intros y Hy. apply Hl. now right.
  - apply Hl. now left.
Qed.

(** Words of three characters or fewer are not indexed: a query made
    of such words only finds nothing, whatever the corpus. *)
Theorem search_short_words (docs : list Doc) (query : string) (max_results : Z)
    (Hshort : forallb (fun w => (len w <=? 3)%nat) (words_of (lower query)) = true) :
  search_content (load_scraped_data docs) query max_results = [].
Proof.
  unfold search_content.
  destruct (scraped_data (load_scraped_data docs)); trivial.
  destruct (words_of (lower query)) as [|w qw] eqn:Eq; trivial.
  assert (Hh : hits (indexed_content (load_scraped_data docs)) (w :: qw) = []).
  { apply hits_short. rewrite forallb_forall in Hshort.
    intros y Hy. now apply Nat.leb_le, Hshort. }
  unfold sorted_docs, score_documents. rewrite score_words_hits, Hh.
  simpl. unfold slice_to_int.
  destruct (0 <=? max_results)%Z; now rewrite firstn_nil.
Qed.

Lemma search_short_words_witness :
  forallb (fun w => (len w <=? 3)%nat) (words_of (lower "Is the API up?")) = true
  /\ search_content
       (load_scraped_data
          [mkDoc "https://coredna.com/api" "API" "The API is documented here"])
       "Is the API up?" 5 = [].
Proof.
  split; [reflexivity|]. apply search_short_words. reflexivity.
Defined.
End SearchFacts.

Section RecallFacts.
Import PyStr PyFloat FloatOrder PyDict Demo DemoSpec IndexSpec.

Lemma keys_set_incl {V : Type} k (v : V) (d : dict V) x :
  In x (keys (set k v d)) <-> x = k \/ In x (keys d).
Proof.
  rewrite keys_set. destruct (mem k (keys d)) eqn:E.
  - apply mem_In in E. split; [tauto|]. now intros [-> | H].
  - rewrite in_app_iff. simpl. split; intros H; intuition.
Qed.

Lemma scored_keys ps : forall acc x,
  In x (keys (fst (fold_left score_posting ps acc))) <->
  In x (keys (fst acc)) \/ In x (map p_url ps).
Proof.
  induction ps as [|p ps IH]; intros [scores info] x; simpl fold_left.
  - simpl. tauto.
  - rewrite IH. simpl. rewrite keys_set_incl. intuition.
Qed.

Lemma scraped_data_load docs : scraped_data (load_scraped_data docs) = docs.
Proof. reflexivity. Qed.

(** A search that may return as many results as the corpus has pages
    returns every page that shares a word of more than three
    characters with the query. *)
Theorem search_finds_sharing_pages (docs : list Doc) (doc : Doc) (query : string)
    (Hdoc : In doc docs) (Hshare : shares_word query doc) :
  In (doc_url doc)
     (map c_url (search_content (load_scraped_data docs) query
                   (Z.of_nat (List.length docs)))).
Proof.
  destruct Hshare as (w & Hw & Hlen & Hdw).
  set (index := indexed_content (load_scraped_data docs)).
  set (qw := words_of (lower query)) in *.
  assert (Hhit : In (posting_of doc) (hits index qw)).
  { destruct (index_complete_aux docs doc w Hdoc Hdw Hlen) as (ps & E & Hin).
    unfold hits. apply in_flat_map. exists w. split; trivial.
    unfold postings_of. fold index in E. now rewrite E. }
  assert (Hkeys : forall x, In x (map fst (sorted_docs index qw)) <->
                            In x (map p_url (hits index qw))).
  { intros x. unfold sorted_docs.
    rewrite (Permutation_in' (eq_refl x)
               (Permutation_map fst (sorted_desc_perm _))).
    unfold score_documents. rewrite score_words_hits.
    change (map fst (items ?d)) with (keys d).
    rewrite scored_keys. simpl. tauto. }
  assert (Hlen' : List.length (sorted_docs index qw) <= List.length docs).
  { rewrite <- (length_map fst), <- (length_map doc_url docs).
    apply NoDup_incl_length; [apply NoDup_ranked|].
    intros x Hx. apply Hkeys in Hx. apply in_map_iff in Hx.
    destruct Hx as (p & <- & Hp).
    pose proof (hits_from_corpus docs qw) as Hc. rewrite Forall_forall in Hc.
    destruct (Hc p Hp) as (d & Hd & ->). simpl. now apply in_map. }
  rewrite urls_of_results, search_content_shown, scraped_data_load.
  fold qw. fold index.
  destruct docs as [|d0 docs']; [destruct Hdoc|].
  destruct qw as [|w0 qw'] eqn:Eq; [destruct Hw|]. simpl orb. cbv iota.
  rewrite map_fst_shown. unfold slice_to_int.
  destruct (0 <=? Z.of_nat (List.length (d0 :: docs')))%Z eqn:E;
    [|apply Z.leb_gt in E; lia].
  rewrite Nat2Z.id, firstn_all2 by exact Hlen'.
  apply Hkeys. apply in_map_iff. exists (posting_of doc). split; trivial.
Qed.

Lemma search_finds_sharing_pages_witness :
  let first := mkDoc "https://coredna.com/a" "" "banana" in
  let second := mkDoc "https://coredna.com/b" "" "apple" in
  In second [first; second] /\ shares_word "An apple a day" second
  /\ In (doc_url second)
       (map c_url (search_content (load_scraped_data [first; second])
                     "An apple a day" 2)).
Proof.
  cbv zeta.
  assert (H1 : In (mkDoc "https://coredna.com/b" "" "apple")
                 [mkDoc "https://coredna.com/a" "" "banana";
                  mkDoc "https://coredna.com/b" "" "apple"])
    by (right; left; reflexivity).
  assert (H2 : shares_word "An apple a day" (mkDoc "https://coredna.com/b" "" "apple")).
  { exists "apple". split; [vm_compute; right; left; reflexivity|].
    split; [vm_compute; lia|vm_compute; left; reflexivity]. }
  split; [exact H1|]. split; [exact H2|].
  exact (search_finds_sharing_pages _ _ _ H1 H2).
Defined.
End RecallFacts.

(** ** The endpoints *)

Section DemoEndpointFacts.
Import PyStr PyFloat FloatOrder PyDict Demo DemoSpec IndexSpec DemoServer EndpointSpec.

Lemma urls_of_context_blocks results :
  map cb_url (context_blocks_of results) = map c_url results.
Proof. unfold context_blocks_of. rewrite map_map. reflexivity. Qed.

Lemma length_take_le {X : Type} (k : nat) (l : list X) : List.length (take k l) <= k.
Proof. apply firstn_le_length. Qed.

(** The sources of a reply of the demo chat: at most three, each the
    url of a page of the corpus. *)
Theorem demo_chat_sources (docs : list Doc) (now : string) (request : ChatRequest) :
  let reply := chat_endpoint (load_scraped_data docs) now request in
  List.length (sources reply) <= 3
  /\ Forall (fun url => exists doc, In doc docs /\ url = doc_url doc) (sources reply).
Proof.
  cbv zeta. unfold chat_endpoint. cbn [sources]. split; [apply length_take_le|].
  set (results := search_content (load_scraped_data docs) (message request) 3).
  assert (Hres : forall url, In url (map c_url results) ->
                             exists doc, In doc docs /\ url = doc_url doc).
  { intros url Hin. apply in_map_iff in Hin. destruct Hin as (c & <- & Hc).
    pose proof (search_results_from_corpus_aux docs (message request) 3) as H.
    rewrite Forall_forall in H. destruct (H c Hc) as (doc & Hd & Hu & _). eauto. }
  apply Forall_forall. intros url Hin. apply In_take in Hin.
  destruct (is_nil (map cit_url _)).
  - apply filter_In in Hin. apply Hres. tauto.
  - apply in_map_iff in Hin. destruct Hin as (cit & <- & Hcit).
    pose proof (demo_citations_sound_aux (message request) (context_blocks_of results)
                  (match_score results)) as H.
    rewrite Forall_forall in H. destruct (H cit Hcit) as (b & Hb & ->).
    apply Hres. rewrite <- urls_of_context_blocks. apply in_map.
    now apply In_take in Hb.
Qed.

(** The confidence that the demo chat reports never exceeds 1.0, also
    when relevance scores of the search do. *)
Theorem demo_chat_confidence (st : Store) (now : string) (request : ChatRequest) :
  exists c, confidence_score (chat_endpoint st now request) = Some c
            /\ le c f1_0 = true.
Proof.
  unfold chat_endpoint. cbn [confidence_score]. eexists. split; [reflexivity|].
  destruct (response_confidence_aux (message request)
              (context_blocks_of (search_content st (message request) 3))
              (match_score (search_content st (message request) 3))) as [_ H].
  cbv zeta in H. destruct H as [-> | [-> | [-> | ->]]]; try reflexivity.
  apply min_one_le.
Qed.

(** When the search finds nothing (an empty corpus, or a query without
    an indexed word) the demo chat lists no source, and answers with a
    fixed answer on the query alone or else with a clarifying question
    at confidence 0.0. *)
Theorem demo_chat_nothing_found (st : Store) (now : string) (request : ChatRequest)
    (Hnone : search_content st (message request) 3 = []) :
  let reply := chat_endpoint st now request in
  sources reply = []
  /\ structured_response reply =
       Some (match canned_response (normalized (message request)) with
             | Some r => r
             | None => mkResponse no_information_text [] zero [action clarify]
             end).
Proof.
  cbv zeta. unfold chat_endpoint. rewrite Hnone.
  cbn [sources structured_response context_blocks_of map].
  change (match_score []) with zero.
  assert (E : Demo.assemble_grounded_response (message request) [] zero =
              match canned_response (normalized (message request)) with
              | Some r => r
              | None => mkResponse no_information_text [] zero [action clarify]
              end).
  { destruct (canned_response _) as [r|] eqn:Eq.
    - now apply demo_canned_some.
    - now rewrite (demo_canned_none _ _ _ Eq). }
  rewrite E. split; trivial.
  destruct (canned_response _) as [r|] eqn:Eq; [|reflexivity].
  unfold canned_response in Eq.
  repeat match type of Eq with
         | (if ?b then _ else _) = _ => destruct b
         end; inversion Eq; reflexivity.
Qed.

Lemma demo_chat_nothing_found_witness :
  search_content (load_scraped_data []) "What about quantum computing?" 3 = []
  /\ sources (chat_endpoint (load_scraped_data []) "20240115_093000"
                (mkRequest "What about quantum computing?" None)) = [].
Proof.
  split; [reflexivity|].
  exact (proj1 (demo_chat_nothing_found (load_scraped_data []) "20240115_093000"
                  (mkRequest "What about quantum computing?" None) eq_refl)).
Defined.

(** The reply of the demo search endpoint has one entry for each
    result of the search, in their order, and counts them; the limit
    is not checked: a limit [>= 0] gives that many entries or all the
    scored documents when they are fewer, a negative limit all scored
    documents but the last [- limit].  The previews have at most 203
    characters. *)
Theorem demo_search_reply (st : Store) (q : string) (limit : Z) :
  let reply := search_endpoint st q limit in
  results_count reply = List.length (sr_results reply)
  /\ map pv_url (sr_results reply) = map c_url (search_content st q limit)
  /\ results_count reply =
       (if is_nil (scraped_data st) || is_nil (words_of (lower q)) then 0
        else if (0 <=? limit)%Z then Nat.min (Z.to_nat limit) (scored st q)
        else scored st q - Z.to_nat (- limit))
  /\ Forall (fun p => len (content_preview p) <= 203) (sr_results reply).
Proof.
  cbv zeta. unfold search_endpoint. cbn [results_count sr_results].
  split; [now rewrite length_map|].
  split; [rewrite map_map; now apply map_ext|].
  split; [apply search_result_count_aux|].
  apply Forall_forall. intros p Hp. apply in_map_iff in Hp.
  destruct Hp as (c & <- & _). cbn [content_preview].
  rewrite len_append. pose proof (len_slice_to 200 (c_content c)).
  change (len "...") with 3. lia.
Qed.

Lemma total_count_set k (d : dict nat) :
  total_count (set k (get_default 0 k d + 1) d) = total_count d + 1.
Proof.
  unfold get_default. induction d as [|[k' v'] d IH]; simpl; trivial.
  destruct (String.eqb k k') eqn:E; simpl; [lia|].
  rewrite IH. lia.
Qed.

Lemma content_type_known url : In (content_type_of url) content_types.
Proof.
  unfold content_type_of, content_types.
  repeat match goal with
         | |- context [if ?b then _ else _] => destruct b
         end; simpl; auto 6.
Qed.

Lemma count_docs_totals docs : forall types n,
  let (types', n') := fold_left count_doc docs (types, n) in
  total_count types' = total_count types + List.length docs
  /\ n' = n + content_length docs
  /\ (Forall (fun kv => In (fst kv) content_types) types ->
      Forall (fun kv => In (fst kv) content_types) types').
Proof.
  induction docs as [|d docs IH]; intros types n; simpl fold_left.
  - simpl. repeat split; trivial; lia.
  - specialize (IH (set (content_type_of (doc_url d))
                      (get_default 0 (content_type_of (doc_url d)) types + 1) types)
                   (n + len (doc_content d))).
    destruct (fold_left count_doc docs _) as [types' n'].
    rewrite total_count_set in IH. destruct IH as (H1 & H2 & H3).
    split; [simpl; lia|]. split; [simpl; lia|].
    intros H. apply H3. apply Forall_set_pair; trivial.
    apply content_type_known.
Qed.

(** The statistics of the demo server: every page is counted under
    exactly one content type, so the counts add up to the number of
    pages, and only the five content types are counted; the average
    length is the total length of the contents divided by that number,
    rounded down. *)
Theorem content_stats_totals (st : Store) :
  match content_stats st with
  | NoDataLoaded => scraped_data st = []
  | Stats total types total_length average keywords =>
      total = List.length (scraped_data st)
      /\ total_count types = total
      /\ total_length = content_length (scraped_data st)
      /\ Forall (fun kv => In (fst kv) content_types) types
      /\ average * total <= total_length < (average + 1) * total
      /\ keywords = List.length (keys (indexed_content st))
  end.
Proof.
  unfold content_stats. destruct (scraped_data st) as [|d docs] eqn:E; trivial.
  pose proof (count_docs_totals (d :: docs) empty 0) as H.
  destruct (fold_left count_doc (d :: docs) (empty, 0)) as [types n].
  destruct H as (H1 & H2 & H3).
  change (0 + content_length (d :: docs)) with (content_length (d :: docs)) in H2.
  change (total_count empty + List.length (d :: docs))
    with (List.length (d :: docs)) in H1.
  subst n.
  repeat split; trivial.
  - apply H3. constructor.
  - rewrite Nat.mul_comm. apply Nat.Div0.mul_div_le.
  - rewrite Nat.add_1_r, Nat.mul_comm.
    apply Nat.mul_succ_div_gt. discriminate.
  - unfold keys. now rewrite length_map.
Qed.
End DemoEndpointFacts.

Section ProductionEndpointFacts.
Import PyStr PyFloat FloatOrder ProductionServer EndpointSpec.

Lemma production_confidence_floor_aux (distances : list float) :
  le f0_1 (Production.retrieval_confidence distances) = true.
Proof.
  unfold Production.retrieval_confidence, max, gt.
  destruct (SFltb f0_1 _) eqn:E; [|reflexivity].
  now apply lt_le.
Qed.

(** The confidence of the production server is at least 0.1, whatever
    the distances are (a NaN among them included). *)
Theorem production_confidence_floor (distances : list float) :
  le f0_1 (Production.retrieval_confidence distances) = true.
Proof. eauto using production_confidence_floor_aux. Qed.

Lemma collect_blocks results :
  Forall (fun r => has_source_url r = true) results ->
  exists blocks,
    collect (fun r => option_map (fun b => [b]) (context_block_of r)) results
      = Some blocks
    /\ map (fun b => Some (cb_url b)) blocks = map source_url_of results.
Proof.
  induction 1 as [|r results Hr _ (blocks & E & Hb)]; [now exists []|].
  unfold has_source_url in Hr. cbn [collect]. rewrite E.
  cbn [map]. rewrite <- Hb. unfold context_block_of, source_url_of.
  destruct (sr_metadata r) as [md|]; [|discriminate].
  destruct (md_source_url md) as [url|] eqn:Eu; [|discriminate].
  cbn [option_map]. eexists. split; reflexivity.
Qed.

Lemma collect_sources results :
  Forall (fun r => has_source_url r = true) results ->
  exists urls,
    collect fallback_source results = Some urls
    /\ forall url, In url urls -> In (Some url) (map source_url_of results).
Proof.
  induction 1 as [|r results Hr _ (urls & E & Hu)].
  - exists []. split; [reflexivity|]. intros url [].
  - unfold has_source_url in Hr. cbn [collect]. rewrite E.
    cbn [map]. unfold fallback_source at 1. unfold source_url_of at 1.
    destruct (sr_metadata r) as [md|]; [|discriminate].
    destruct (md_source_url md) as [url|] eqn:Eu; [|discriminate].
    eexists. split; [reflexivity|].
    intros x Hx. apply in_app_or in Hx. destruct Hx as [Hx | Hx].
    + destruct (is_empty url); [destruct Hx|]. destruct Hx as [<- | []].
      now left.
    + right. now apply Hu.
Qed.

Lemma Forall_take {X : Type} (P : X -> Prop) k (l : list X) :
  Forall P l -> Forall P (take k l).
Proof.
  intros H. apply Forall_forall. intros x Hx. apply In_take in Hx.
  rewrite Forall_forall in H. auto.
Qed.

(** When every result of the vector search has metadata with a source
    url, the production chat answers: with at most three sources, each
    the source url of a result, and with a confidence of at least
    0.1. *)
Theorem production_chat_answers (results : list SearchResult) (now : string)
    (request : ChatRequest)
    (Hurls : Forall (fun r => has_source_url r = true) results) :
  exists reply c,
    chat_endpoint (Some results) now request = Ok reply
    /\ List.length (sources reply) <= 3
    /\ Forall (fun url => In (Some url) (map source_url_of results)) (sources reply)
    /\ confidence_score reply = Some c /\ le f0_1 c = true.
Proof.
  unfold chat_endpoint.
  destruct (collect_blocks (take 3 results) (Forall_take _ 3 _ Hurls))
    as (blocks & -> & Hb).
  destruct (collect_sources results Hurls) as (urls & Eu & Hu).
  set (conf := Production.retrieval_confidence (map sr_distance results)).
  set (rag := Production.assemble_grounded_response (message request) blocks conf).
  assert (Hc : confidence rag = conf) by apply response_confidence_aux.
  assert (Hcit : forall url, In url (map cit_url (citations rag)) ->
                             In (Some url) (map source_url_of results)).
  { intros url Hin. apply in_map_iff in Hin. destruct Hin as (cit & <- & Hcit).
    pose proof (production_citations_sound_aux (message request) blocks conf) as H.
    rewrite Forall_forall in H. destruct (H cit Hcit) as (b & Hin & -> & _).
    apply In_take in Hin.
    assert (Hs : In (Some (cb_url b)) (map (fun b => Some (cb_url b)) blocks))
      by (apply in_map_iff; eauto).
    rewrite Hb in Hs. apply in_map_iff in Hs. destruct Hs as (r & Er & Hr).
    apply in_map_iff. exists r. split; trivial. now apply In_take in Hr. }
  destruct (is_nil (map cit_url (citations rag))) eqn:En.
  - rewrite Eu. eexists. exists conf. split; [reflexivity|].
    cbn [sources confidence_score]. split; [apply length_take_le|].
    split; [|split; [now rewrite Hc|apply production_confidence_floor_aux]].
    apply Forall_forall. intros url Hin. apply In_take in Hin. auto.
  - eexists. exists conf. split; [reflexivity|].
    cbn [sources confidence_score]. split; [apply length_take_le|].
    split; [|split; [now rewrite Hc|apply production_confidence_floor_aux]].
    apply Forall_forall. intros url Hin. apply In_take in Hin. auto.
Qed.

Lemma production_chat_answers_witness :
  let result :=
    mkSearchResult "Core DNA offers flexible pricing plans." f0_5
      (Some (mkMetadata (Some "Pricing") (Some "https://coredna.com/pricing") None)) in
  Forall (fun r => has_source_url r = true) [result]
  /\ exists reply c,
       chat_endpoint (Some [result]) "20240115_093000"
         (mkRequest "What does it cost?" None) = Ok reply
       /\ List.length (sources reply) <= 3
       /\ Forall (fun url => In (Some url) (map source_url_of [result])) (sources reply)
       /\ confidence_score reply = Some c /\ le f0_1 c = true.
Proof.
  cbv zeta.
  assert (H : Forall (fun r => has_source_url r = true)
                [mkSearchResult "Core DNA offers flexible pricing plans." f0_5
                   (Some (mkMetadata (Some "Pricing")
                            (Some "https://coredna.com/pricing") None))])
    by (constructor; [reflexivity|constructor]).
  split; [exact H|].
  exact (production_chat_answers _ "20240115_093000"
           (mkRequest "What does it cost?" None) H).
Defined.

Lemma collect_fails {X Y : Type} (f : X -> option (list Y)) (l : list X) :
  collect f l = None -> exists x, In x l /\ f x = None.
Proof.
  induction l as [|x l IH]; [discriminate|]. cbn [collect].
  destruct (f x) eqn:E; [|intros _; exists x; split; [now left|trivial]].
  destruct (collect f l); [discriminate|]. intros _.
  destruct (IH eq_refl) as (y & Hy & Ey). exists y. split; [now right|trivial].
Qed.

(** The production chat fails with status 500 only, and only when the
    vector store is not available or a result of the search lacks its
    metadata or its source url. *)
Theorem production_chat_failures (vector_store : option (list SearchResult))
    (now : string) (request : ChatRequest) (status : nat)
    (Hfail : chat_endpoint vector_store now request = HTTPError status) :
  status = 500
  /\ (vector_store = None
      \/ exists results r, vector_store = Some results /\ In r results
                           /\ has_source_url r = false).
Proof.
  unfold chat_endpoint in Hfail. destruct vector_store as [results|].
  - destruct (collect _ (take 3 results)) as [blocks|] eqn:Eb.
    + destruct (is_nil _).
      * destruct (collect fallback_source results) eqn:Es; inversion Hfail.
        split; trivial. right. apply collect_fails in Es.
        destruct Es as (r & Hr & Er). exists results, r. repeat split; trivial.
        unfold fallback_source in Er. unfold has_source_url.
        destruct (sr_metadata r) as [md|]; trivial.
        destruct (md_source_url md); discriminate.
      * discriminate.
    + inversion Hfail. split; trivial. right. apply collect_fails in Eb.
      destruct Eb as (r & Hr & Er). exists results, r.
      split; trivial. split; [now apply In_take in Hr|].
      unfold context_block_of in Er. unfold has_source_url.
      destruct (sr_metadata r) as [md|]; trivial.
      destruct (md_source_url md); [discriminate|trivial].
  - inversion Hfail. auto.
Qed.

Lemma production_chat_failures_witness :
  let results := [mkSearchResult "Core DNA offers flexible pricing plans." f0_5 None] in
  chat_endpoint (Some results) "20240115_093000" (mkRequest "hello" None)
    = HTTPError 500
  /\ (500 = 500
      /\ (Some results = None
          \/ exists results' r, Some results = Some results' /\ In r results'
                                /\ has_source_url r = false)).
Proof.
  cbv zeta. split; [reflexivity|].
  exact (production_chat_failures
           (Some [mkSearchResult "Core DNA offers flexible pricing plans." f0_5 None])
           "20240115_093000" (mkRequest "hello" None) 500 eq_refl).
Defined.

Lemma collect_hits results :
  Forall (fun r => has_source_url r = true) results ->
  exists hits,
    collect (fun r => option_map (fun h => [h]) (hit_of r)) results = Some hits
    /\ map (fun h => Some (hit_source_url h)) hits = map source_url_of results
    /\ map hit_distance hits = map sr_distance results
    /\ map hit_text hits = map sr_text results.
Proof.
  induction 1 as [|r results Hr _ (hits & E & H1 & H2 & H3)]; [now exists []|].
  unfold has_source_url in Hr. cbn [collect]. rewrite E.
  cbn [map]. rewrite <- H1, <- H2, <- H3. unfold hit_of, source_url_of.
  destruct (sr_metadata r) as [md|]; [|discriminate].
  destruct (md_source_url md) as [url|] eqn:Eu; [|discriminate].
  cbn [option_map]. eexists. repeat split; reflexivity.
Qed.

Lemma collect_hits_some results : forall hits,
  collect (fun r => option_map (fun h => [h]) (hit_of r)) results = Some hits ->
  Forall (fun r => has_source_url r = true) results.
Proof.
  induction results as [|r results IH]; intros hits E; [constructor|].
  cbn [collect] in E. unfold hit_of at 1 in E. constructor.
  - unfold has_source_url. destruct (sr_metadata r) as [md|]; [|discriminate].
    now destruct (md_source_url md).
  - destruct (option_map _ _); [|discriminate].
    destruct (collect _ results) as [rest|]; [|discriminate]. now apply (IH rest).
Qed.

(** The outcomes of the production search. It fails with status 503
    exactly when the vector store is not available (the same test in
    the chat gives 500), and with status 500 exactly when a result
    lacks its metadata or its source url. Otherwise it answers one
    entry per result, in their order, with the text, the source url
    and the distance of the result, a relevance of 1.0 minus the
    distance, and the number of results as count. *)
Theorem production_search_outcomes (vector_store : option (list SearchResult))
    (q : string) (now : string) (request : ChatRequest) :
  match search_endpoint vector_store q with
  | HTTPError status =>
      (status = 503 /\ vector_store = None
       /\ chat_endpoint vector_store now request = HTTPError 500)
      \/ (status = 500
          /\ exists results r, vector_store = Some results /\ In r results
                               /\ has_source_url r = false)
  | Ok reply =>
      exists results,
        vector_store = Some results
        /\ Forall (fun r => has_source_url r = true) results
        /\ sh_results_count reply = List.length (sh_results reply)
        /\ map (fun h => Some (hit_source_url h)) (sh_results reply)
           = map source_url_of results
        /\ map hit_text (sh_results reply) = map sr_text results
        /\ map hit_distance (sh_results reply) = map sr_distance results
        /\ Forall (fun h => hit_relevance_score h = PyFloat.sub f1_0 (hit_distance h))
                  (sh_results reply)
  end.
Proof.
  unfold search_endpoint. destruct vector_store as [results|]; [|left; auto].
  destruct (collect _ results) as [hits|] eqn:E.
  - exists results. split; trivial.
    pose proof (collect_hits_some _ _ E) as Hall. split; trivial.
    destruct (collect_hits results Hall) as (hits' & E' & H1 & H2 & H3).
    rewrite E in E'. inversion E'; subst hits'. cbn [sh_results_count sh_results].
    split; [now rewrite <- (length_map hit_distance), H2, length_map|].
    repeat split; trivial.
    clear - E. revert hits E. induction results as [|r results IH]; intros hits E.
    + inversion E. constructor.
    + cbn [collect] in E. unfold hit_of at 1 in E.
      destruct (sr_metadata r) as [md|]; [|discriminate].
      destruct (md_source_url md) as [url|]; [|discriminate].
      cbn [option_map] in E.
      destruct (collect _ results) as [rest|]; [|discriminate].
      inversion E; subst. constructor; [reflexivity|]. now apply IH.
  - right. split; trivial. apply collect_fails in E.
    destruct E as (r & Hr & Er). exists results, r. repeat split; trivial.
    unfold hit_of in Er. unfold has_source_url.
    destruct (sr_metadata r) as [md|]; trivial.
    destruct (md_source_url md); [discriminate|trivial].
Qed.
End ProductionEndpointFacts.

(** ** The confidence handed to the assembler *)

Section ConfidenceClaims.
Import PyStr PyFloat FloatOrder PyDict Demo DemoSpec ProductionServer EndpointSpec.

(** C6, as amended.  The demo chat calls the assembler with the
    message, the context blocks of the results of the search, and the
    confidence [min(1.0, mean)] of the relevance scores of these
    results, or 0.0 when there is none; this confidence never exceeds
    1.0.  The production chat, when the results of the vector search
    carry their source urls, calls the assembler with the blocks of
    the first three results and the confidence
    [max(0.1, 1.0 - mean / 2.0)] of the distances of all the results,
    or 0.5 when there is none, and reports that confidence. *)
Theorem confidence_derivation (st : Store) (results : list SearchResult)
    (now : string) (request : ChatRequest)
    (Hurls : Forall (fun r => has_source_url r = true) results) :
  let found := search_content st (message request) 3 in
  let demo_confidence :=
    match found with
    | [] => zero
    | _ :: _ => min f1_0 (mean (map relevance_score found))
    end in
  let production_confidence :=
    match results with
    | [] => f0_5
    | _ :: _ => max f0_1 (sub f1_0 (div (mean (map sr_distance results)) f2_0))
    end in
  structured_response (DemoServer.chat_endpoint st now request) =
    Some (Demo.assemble_grounded_response (message request)
            (context_blocks_of found) demo_confidence)
  /\ le demo_confidence f1_0 = true
  /\ exists reply blocks,
       ProductionServer.chat_endpoint (Some results) now request = Ok reply
       /\ map (fun b => Some (cb_url b)) blocks = map source_url_of (take 3 results)
       /\ structured_response reply =
            Some (Production.assemble_grounded_response (message request) blocks
                    production_confidence)
       /\ confidence_score reply = Some production_confidence.
Proof.
  cbv zeta. split; [|split].
  - unfold DemoServer.chat_endpoint. cbn [structured_response].
    do 2 f_equal. unfold Demo.match_score, mean.
    destruct (search_content st (message request) 3); [reflexivity|].
    now rewrite length_map.
  - destruct (search_content st (message request) 3); [reflexivity|].
    apply min_one_le.
  - destruct (collect_blocks (take 3 results) (Forall_take _ 3 _ Hurls))
      as (blocks & Eb & Hb).
    destruct (collect_sources results Hurls) as (urls & Eu & _).
    assert (Ec : Production.retrieval_confidence (map sr_distance results) =
                 match results with
                 | [] => f0_5
                 | _ :: _ =>
                     max f0_1 (sub f1_0 (div (mean (map sr_distance results)) f2_0))
                 end) by (destruct results; reflexivity).
    unfold ProductionServer.chat_endpoint. rewrite Eb, Ec.
    destruct (is_nil _); [rewrite Eu|];
      (eexists; exists blocks; split; [reflexivity|];
       cbn [structured_response confidence_score];
       split; [exact Hb|]; split; [reflexivity|];
       f_equal; apply response_confidence_aux).
Qed.

Lemma confidence_derivation_witness :
  let st := load_scraped_data
              [mkDoc "https://coredna.com/platform" "Platform" "platform"] in
  let results :=
    [mkSearchResult "Core DNA offers flexible pricing plans." f0_5
       (Some (mkMetadata (Some "Pricing") (Some "https://coredna.com/pricing") None))] in
  let now := "20240115_093000" in
  let request := mkRequest "What does the platform cost?" None in
  Forall (fun r => has_source_url r = true) results
  /\ (let found := search_content st (message request) 3 in
      let demo_confidence :=
        match found with
        | [] => zero
        | _ :: _ => min f1_0 (mean (map relevance_score found))
        end in
      let production_confidence :=
        match results with
        | [] => f0_5
        | _ :: _ => max f0_1 (sub f1_0 (div (mean (map sr_distance results)) f2_0))
        end in
      structured_response (DemoServer.chat_endpoint st now request) =
        Some (Demo.assemble_grounded_response (message request)
                (context_blocks_of found) demo_confidence)
      /\ le demo_confidence f1_0 = true
      /\ exists reply blocks,
           ProductionServer.chat_endpoint (Some results) now request = Ok reply
           /\ map (fun b => Some (cb_url b)) blocks
              = map source_url_of (take 3 results)
           /\ structured_response reply =
                Some (Production.assemble_grounded_response (message request) blocks
                        production_confidence)
           /\ confidence_score reply = Some production_confidence).
Proof.
  intros st results now request.
  assert (H : Forall (fun r => has_source_url r = true) results)
    by (constructor; [reflexivity|constructor]).
  split; [exact H|].
  exact (confidence_derivation st results now request H).
Defined.

(** C6 as stated fails on the production server: when the vector
    search returns nothing, the chat calls the assembler with the
    confidence 0.5, not 0.0. *)
Lemma confidence_without_results_in_production :
  exists reply,
    ProductionServer.chat_endpoint (Some []) "20240115_093000"
      (mkRequest "hello" None) = Ok reply
    /\ structured_response reply =
         Some (Production.assemble_grounded_response "hello" [] f0_5)
    /\ confidence_score reply = Some f0_5
    /\ f0_5 <> zero.
Proof.
  eexists. split; [reflexivity|].
  split; [vm_compute; reflexivity|].
  split; [vm_compute; reflexivity|discriminate].
Qed.
End ConfidenceClaims.

(** ** The forms of a cleaned excerpt *)

Section CleanerForms.
Import PyStr Cleaner CleanerSpec.

Lemma len_truncated n s : len (truncated n s) <= n + 3.
Proof.
  unfold truncated. rewrite len_append. pose proof (len_slice_to n s).
  destruct (n <? len s)%nat;
    [change (len "...") with 3|change (len "") with 0]; lia.
Qed.

(** Without a useful sentence the result comes from a fallback and has
    at most 303 characters. *)
Theorem clean_content_fallback_bounded (s : string)
    (Hnone : useful_sentences (strip_passes s) = []) :
  len (clean_content s) <= 303.
Proof.
  unfold clean_content. destruct (is_empty s); [change (len "") with 0; lia|].
  cbv zeta. rewrite Hnone.
  destruct (description (strip_passes s)); [apply len_truncated|].
  destruct (paragraphs (strip_passes s)); [|apply len_truncated].
  destruct (200 <? len (strip_passes s))%nat eqn:E.
  - rewrite len_append. pose proof (len_slice_to 200 (strip_passes s)).
    change (len "...") with 3. lia.
  - apply Nat.ltb_ge in E. lia.
Qed.

Lemma clean_content_fallback_bounded_witness :
  useful_sentences (strip_passes "Description  Warehouse opening hours") = []
  /\ len (clean_content "Description  Warehouse opening hours") <= 303.
Proof.
  split; [reflexivity|]. apply clean_content_fallback_bounded. reflexivity.
Defined.

(** With a useful sentence the result is made of the first three
    useful sentences, joined by [". "] and closed by one [.]; each of
    them is stripped, holds no [.], [!] or [?], and passes the test
    of usefulness (more than 30 characters, a word of the vocabulary). *)
Theorem clean_content_sentences (s : string)
    (Hsome : useful_sentences (strip_passes s) <> []) :
  let top := take 3 (useful_sentences (strip_passes s)) in
  clean_content s = join ". " top ++ "."
  /\ top <> [] /\ Forall kept top
  /\ endswith "." (clean_content s) = true.
Proof.
  cbv zeta.
  pose proof (useful_sentences_kept (strip_passes s)) as Hk.
  assert (Hk3 : Forall kept (take 3 (useful_sentences (strip_passes s)))).
  { unfold take. rewrite <- (firstn_skipn 3 (useful_sentences _)) in Hk.
    now apply Forall_app in Hk. }
  assert (Hne : take 3 (useful_sentences (strip_passes s)) <> []).
  { destruct (useful_sentences (strip_passes s)); [congruence|simpl; discriminate]. }
  assert (E : clean_content s =
              join ". " (take 3 (useful_sentences (strip_passes s))) ++ ".").
  { unfold clean_content. destruct s as [|a s].
    - exfalso. apply Hsome. reflexivity.
    - simpl is_empty. cbv iota. cbv zeta.
      destruct (useful_sentences (strip_passes (String a s))) as [|u us] eqn:Eu;
        [congruence|].
      now rewrite joined_not_dotted. }
  repeat split; trivial. rewrite E.
  generalize (join ". " (take 3 (useful_sentences (strip_passes s)))).
  intros t. induction t as [|c t IH]; [reflexivity|].
  simpl append. cbn [endswith]. rewrite IH. apply orb_true_r.
Qed.

Lemma clean_content_sentences_witness :
  useful_sentences (strip_passes (cb_excerpt ecommerce_block)) <> []
  /\ endswith "." (clean_content (cb_excerpt ecommerce_block)) = true.
Proof.
  assert (H : useful_sentences (strip_passes (cb_excerpt ecommerce_block)) <> [])
    by (vm_compute; discriminate).
  split; [exact H|].
  exact (proj2 (proj2 (proj2 (clean_content_sentences _ H)))).
Defined.
End CleanerForms.

(** ** The white space of a cleaned excerpt *)

Section WhitespaceFacts.
Import PyStr Cleaner CleanerSpec WhitespaceSpec.

Local Abbreviation ws s := (Re.sub_from re_whitespace " " None s 0).

Lemma m_star_class p s prev :
  Re.m [Re.Star true p] prev s [] = Some (skip_class p s, []).
Proof.
  revert prev. induction s as [|c s IH]; intros prev; trivial.
  simpl. destruct (p c) eqn:E; trivial.
  specialize (IH (Some c)). simpl in IH. now rewrite IH.
Qed.

Lemma m_plus_class p prev s :
  Re.m (Re.plus p) prev s [] =
    match s with
    | String c s' => if p c then Some (skip_class p s', []) else None
    | "" => None
    end.
Proof.
  destruct s as [|c s]; trivial. unfold Re.plus. simpl.
  destruct (p c); trivial.
  pose proof (m_star_class p s (Some c)) as H. simpl in H. exact H.
Qed.

Lemma sub_from_drop s : forall k prev,
  k <= len s -> Re.sub_from re_whitespace " " prev s k = ws (drop k s).
Proof.
  induction s as [|c s IH]; intros k prev Hk.
  - destruct k; [reflexivity|simpl in Hk; lia].
  - destruct k.
    + cbn [drop Re.sub_from]. unfold re_whitespace. now rewrite !m_plus_class.
    + cbn [Re.sub_from drop]. apply IH. simpl in Hk. unfold len in *. lia.
Qed.

(** Collapsing white space, step by step: a run of white space gives
    one space, any other character is kept. *)
Lemma ws_step c s :
  ws (String c s) =
    if is_space c then String " " (ws (skip_class is_space s))
    else String c (ws s).
Proof.
  cbn [Re.sub_from]. unfold re_whitespace at 1. rewrite m_plus_class.
  destruct (is_space c).
  - rewrite consumed_skip_class, sub_from_drop, drop_skip_class; trivial.
    unfold len. lia.
  - now rewrite (sub_from_drop s 0 (Some c)) by lia.
Qed.

Lemma skip_class_head p s :
  skip_class p s = "" \/ exists d u, skip_class p s = String d u /\ p d = false.
Proof.
  induction s as [|c s IH]; simpl; auto.
  destruct (p c) eqn:E; eauto.
Qed.

Lemma ws_tidy n : forall s, len s <= n -> tidy (ws s) = true.
Proof.
  induction n as [|n IH]; intros [|c s] Hn; trivial.
  - simpl in Hn. lia.
  - rewrite ws_step. simpl in Hn.
    assert (Hs : len s <= n) by (unfold len in *; lia).
    destruct (is_space c) eqn:Ec.
    + pose proof (len_skip_class is_space s) as Hl.
      cbn [tidy]. change (is_space " ") with true. cbv iota.
      rewrite IH by lia.
      destruct (skip_class_head is_space s) as [-> | (d & u & -> & Hd)];
        [reflexivity|].
      rewrite ws_step, Hd. cbn. now rewrite Hd.
    + cbn [tidy]. rewrite Ec. now rewrite IH.
Qed.

Lemma tidy_free s : tidy s = true -> free_of odd_space s = true.
Proof.
  induction s as [|c s IH]; trivial. cbn [tidy free_of]. intros H.
  apply andb_prop in H. destruct H as [H1 H2]. rewrite (IH H2), andb_true_r.
  unfold odd_space. destruct (is_space c); trivial.
  apply andb_prop in H1. destruct H1 as [H1 _]. now rewrite H1.
Qed.

(** After the stripping passes all white space is single plain
    spaces. *)
Lemma strip_passes_tidy s : tidy (strip_passes s) = true.
Proof. unfold strip_passes, Re.sub. now apply (ws_tidy _ _ (Nat.le_refl _)). Qed.

Section Pieces.
Variable q : ascii -> bool.

Local Abbreviation free s := (free_of q s = true).

Lemma free_tail c s : free (String c s) -> q c = false /\ free s.
Proof.
  cbn [free_of]. intros H. apply andb_prop in H.
  destruct H as [H1 H2]. now apply negb_true_iff in H1.
Qed.

Lemma free_cons c s : q c = false -> free s -> free (String c s).
Proof. intros H1 H2. cbn [free_of]. now rewrite H1, H2. Qed.

Lemma free_slice_to n : forall s, free s -> free (slice_to n s).
Proof.
  induction n as [|n IH]; intros [|c s] H; trivial.
  apply free_tail in H. destruct H. cbn [slice_to]. apply free_cons; auto.
Qed.

Lemma free_join sep (l : list string) :
  free sep -> Forall (fun u => free u) l -> free (join sep l).
Proof.
  intros Hsep. induction 1 as [|u l Hu Hl IH]; trivial.
  destruct l as [|v l]; trivial.
  change (join sep (u :: v :: l)) with (u ++ sep ++ join sep (v :: l)).
  auto using free_of_app.
Qed.

Lemma free_re_split r s : forall k prev,
  free s ->
  free (fst (Re.split_from r prev s k))
  /\ Forall (fun u => free u) (snd (Re.split_from r prev s k)).
Proof.
  induction s as [|c s IH]; intros k prev H; [simpl; auto|].
  apply free_tail in H. destruct H as [Hc Hs].
  cbn [Re.split_from]. destruct k; [|now apply IH].
  destruct (Re.m r prev (String c s) []) as [[rest marks]|].
  - destruct (Re.consumed (String c s) rest) as [|k].
    + destruct (IH 0 (Some c) Hs) as [H1 H2].
      destruct (Re.split_from r (Some c) s 0). simpl in *.
      split; trivial. now apply free_cons.
    + destruct (IH k (Some c) Hs) as [H1 H2].
      destruct (Re.split_from r (Some c) s k). simpl in *. auto.
  - destruct (IH 0 (Some c) Hs) as [H1 H2].
    destruct (Re.split_from r (Some c) s 0). simpl in *.
    split; trivial. now apply free_cons.
Qed.

Lemma free_str_split sep s : forall k,
  free s ->
  free (fst (PyStr.split_aux sep s k))
  /\ Forall (fun u => free u) (snd (PyStr.split_aux sep s k)).
Proof.
  induction s as [|c s IH]; intros k H; [simpl; auto|].
  apply free_tail in H. destruct H as [Hc Hs].
  cbn [PyStr.split_aux]. destruct k; [|now apply IH].
  destruct (startswith sep (String c s)).
  - destruct (IH (len sep - 1) Hs) as [H1 H2].
    destruct (PyStr.split_aux sep s (len sep - 1)). simpl in *. auto.
  - destruct (IH 0 Hs) as [H1 H2].
    destruct (PyStr.split_aux sep s 0). simpl in *.
    split; trivial. now apply free_cons.
Qed.

Lemma free_step a prev s prev' s' :
  Re.step a prev s = Some (prev', s') -> free s -> free s'.
Proof.
  destruct a; simpl.
  - destruct s as [|c s]; [discriminate|]. destruct (p c); [|discriminate].
    intros E H. inversion E; subst. now apply free_tail in H.
  - destruct prev; [discriminate|]. intros E; now inversion E.
  - destruct prev as [c|]; [destruct (Ascii.eqb c nl)|]; try discriminate;
      intros E; now inversion E.
  - destruct s as [|c [|d s]]; try discriminate;
      [|destruct (Ascii.eqb c nl); try discriminate]; intros E; now inversion E.
  - destruct (xorb _ _); [|discriminate]. intros E; now inversion E.
Qed.

(** The marks of a match are subjects left at some position: they
    hold no character that the subject does not hold. *)
Lemma free_marks r : forall prev s marks rest marks',
  Re.m r prev s marks = Some (rest, marks') ->
  free s -> Forall (fun u => free u) marks -> Forall (fun u => free u) marks'.
Proof.
  induction r as [|nd r IH]; intros prev s marks rest marks' E Hs Hm.
  - simpl in E. inversion E; subst. exact Hm.
  - destruct nd as [a | greedy p | alts |].
    + cbn [Re.m] in E. destruct (Re.step a prev s) as [[prev' s']|] eqn:Es;
        [|discriminate].
      eapply IH; eauto. eapply free_step; eauto.
    + destruct greedy.
      * revert prev E. induction s as [|c s IHs]; intros prev E.
        -- cbn in E. eapply IH; eauto.
        -- cbn in E. apply free_tail in Hs as Hs'. destruct Hs' as [_ Hs'].
           destruct (p c).
           ++ match type of E with
              | match ?X with _ => _ end = _ => destruct X as [x|] eqn:EX
              end.
              ** inversion E; subst. eapply (IHs Hs' (Some c)). exact EX.
              ** eapply IH; eauto.
           ++ eapply IH; eauto.
      * revert prev E. induction s as [|c s IHs]; intros prev E.
        -- cbn in E. destruct (Re.m r prev "" marks) as [x|] eqn:EX;
             [|discriminate].
           inversion E; subst. eapply IH; eauto.
        -- cbn in E. apply free_tail in Hs as Hs'. destruct Hs' as [_ Hs'].
           destruct (Re.m r prev (String c s) marks) as [x|] eqn:EX.
           ++ inversion E; subst. eapply IH; eauto.
           ++ destruct (p c); [|discriminate]. eapply (IHs Hs' (Some c)). exact E.
    + cbn [Re.m] in E. destruct (existsb _ alts); [|discriminate].
      eapply IH; eauto.
    + cbn [Re.m] in E. eapply IH; [exact E|exact Hs|]. now constructor.
Qed.

Lemma free_search r s : forall prev at_ rest marks,
  Re.search_from r prev s = Some (at_, rest, marks) ->
  free s -> Forall (fun u => free u) marks.
Proof.
  induction s as [|c s IH]; intros prev at_ rest marks E Hs.
  - cbn in E. destruct (Re.m r prev "" []) as [[rest' marks']|] eqn:Em;
      [|discriminate].
    inversion E; subst. eapply free_marks; eauto.
  - cbn [Re.search_from] in E.
    destruct (Re.m r prev (String c s) []) as [[rest' marks']|] eqn:Em.
    + inversion E; subst. eapply free_marks; eauto.
    + apply free_tail in Hs. destruct Hs. eapply IH; eauto.
Qed.

Hypothesis q_dot : q "." = false.
Hypothesis q_space : q " " = false.

(** No character of class [q] gets into the result of [clean_content]
    that the stripping passes have not left in the text. *)
Lemma free_clean_content s :
  free (strip_passes s) -> free (clean_content s).
Proof.
  intros H. unfold clean_content. destruct (is_empty s); trivial. cbv zeta.
  assert (Hdots : free "...") by (cbn; now rewrite q_dot).
  assert (Htrunc : forall n t, free t -> free (truncated n t)).
  { intros n t Ht. unfold truncated. apply free_of_app; [now apply free_slice_to|].
    now destruct (n <? len t)%nat. }
  destruct (useful_sentences (strip_passes s)) as [|u us] eqn:Eu.
  - destruct (description (strip_passes s)) as [d|] eqn:Ed.
    + apply Htrunc. unfold description in Ed.
      destruct (Re.search re_description (strip_passes s))
        as [[[at_ rest] marks]|] eqn:Es; [|discriminate].
      apply free_search in Es; trivial.
      destruct marks as [|after [|before [|? ?]]]; try discriminate.
      inversion Ed; subst. apply free_of_strip, free_slice_to.
      inversion Es as [|? ? _ Hb]; subst. now inversion Hb.
    + destruct (paragraphs (strip_passes s)) as [|p ps] eqn:Ep.
      * destruct (200 <? len (strip_passes s))%nat; trivial.
        apply free_of_app; [now apply free_slice_to|trivial].
      * apply Htrunc.
        assert (Hin : In p (paragraphs (strip_passes s))) by (rewrite Ep; now left).
        unfold paragraphs in Hin. apply in_map_iff in Hin.
        destruct Hin as (x & <- & Hx). apply filter_In in Hx. destruct Hx as [Hx _].
        apply free_of_strip. unfold PyStr.split in Hx.
        destruct (free_str_split NLNL (strip_passes s) 0 H) as [H1 H2].
        destruct (PyStr.split_aux NLNL (strip_passes s) 0). simpl in *.
        destruct Hx as [<- | Hx]; trivial. rewrite Forall_forall in H2. auto.
  - assert (Hall : Forall (fun u => free u) (useful_sentences (strip_passes s))).
    { unfold useful_sentences. apply Forall_forall. intros x Hx.
      apply in_map_iff in Hx. destruct Hx as (y & <- & Hy).
      apply filter_In in Hy. destruct Hy as [Hy _].
      apply in_map_iff in Hy. destruct Hy as (z & <- & Hz).
      apply free_of_strip, free_of_strip. unfold Re.split in Hz.
      destruct (free_re_split re_sentence_end (strip_passes s) 0 None H) as [H1 H2].
      destruct (Re.split_from re_sentence_end None (strip_passes s) 0). simpl in *.
      destruct Hz as [<- | Hz]; trivial. rewrite Forall_forall in H2. auto. }
    rewrite Eu in Hall.
    assert (Hj : free (join ". " (take 3 (u :: us)))).
    { apply free_join; [cbn; now rewrite q_dot, q_space|].
      now apply Forall_take. }
    destruct (endswith "." _); trivial.
    apply free_of_app; trivial. cbn. now rewrite q_dot.
Qed.
End Pieces.

(** A cleaned excerpt is one line: the stripping passes leave single
    plain spaces as the only white space, and the result holds no tab,
    line break or other white space than the plain space. *)
Theorem clean_content_one_line (s : string) :
  tidy (strip_passes s) = true
  /\ free_of odd_space (clean_content s) = true.
Proof.
  split; [apply strip_passes_tidy|].
  apply free_clean_content; try reflexivity.
  apply tidy_free, strip_passes_tidy.
Qed.
End WhitespaceFacts.
